(** * dcnetworkconfig: the retriever, the Gemini client and the orchestrator
    of [app.py], embedded in Rocq.

    Python values are modelled as the interpreter has them: a [str] is a
    sequence of Unicode code points, an [int] is an unbounded integer, a
    parsed JSON body is a tree of dicts, lists, strings, numbers, booleans
    and [None], and an operation that can raise returns a [result]. *)

From Stdlib Require Import ZArith NArith List Bool Ascii String Floats Lia.
From Stdlib Require Import Permutation Sorting.Sorted.
Import ListNotations.

Set Warnings "-register-all".

Local Open Scope Z_scope.

(** ** Python strings *)

Module Py.

(** A code point, and a [str] as the sequence of its code points. *)
Definition char : Type := N.
Definition str : Type := list char.

(** An ASCII literal of the source, as a [str]. *)
Definition lit (s : string) : str := map N_of_ascii (list_ascii_of_string s).

Definition char_eqb (a b : char) : bool := N.eqb a b.

Fixpoint str_eqb (a b : str) : bool :=
  match a, b with
  | [], [] => true
  | x :: a', y :: b' => char_eqb x y && str_eqb a' b'
  | _, _ => false
  end.

(** [str.isspace] on one code point: the interpreter's whitespace table
    (bidirectional classes WS, B, S and category Zs). *)
Definition isspace (c : char) : bool :=
  (((9 <=? c) && (c <=? 13)) || ((28 <=? c) && (c <=? 32))
   || (c =? 133) || (c =? 160) || (c =? 5760)
   || ((8192 <=? c) && (c <=? 8202))
   || (c =? 8232) || (c =? 8233) || (c =? 8239) || (c =? 8287)
   || (c =? 12288))%N.

(** [s.lstrip()], [s.rstrip()] and [s.strip()] without argument. *)
Fixpoint lstrip (s : str) : str :=
  match s with
  | [] => []
  | c :: s' => if isspace c then lstrip s' else s
  end.

Definition rstrip (s : str) : str := rev (lstrip (rev s)).

Definition strip (s : str) : str := rstrip (lstrip s).

(** [s.split()] without argument: the maximal runs of non-whitespace code
    points, left to right. [cur] is the run being scanned, last code point
    first. *)
Definition flush (cur : str) (rest : list str) : list str :=
  match cur with
  | [] => rest
  | _ :: _ => rev cur :: rest
  end.

Fixpoint split_from (cur : str) (s : str) : list str :=
  match s with
  | [] => flush cur []
  | c :: s' =>
      if isspace c then flush cur (split_from [] s')
      else split_from (c :: cur) s'
  end.

Definition split (s : str) : list str := split_from [] s.

(** [w in s] on strings: [w] occurs in [s] as a contiguous substring. *)
Fixpoint startswith (s w : str) {struct w} : bool :=
  match w, s with
  | [], _ => true
  | _ :: _, [] => false
  | a :: w', b :: s' => char_eqb a b && startswith s' w'
  end.

Fixpoint str_in (w s : str) : bool :=
  startswith s w ||
  match s with
  | [] => false
  | _ :: s' => str_in w s'
  end.

(** [sep.join(l)]. *)
Fixpoint join (sep : str) (l : list str) : str :=
  match l with
  | [] => []
  | x :: l' =>
      match l' with
      | [] => x
      | _ :: _ => x ++ sep ++ join sep l'
      end
  end.

(** [s.lower()]. On a string of ASCII code points it maps [A-Z] to [a-z]
    and leaves the rest; on any other string it is the interpreter's Unicode
    case mapping, a table that is no part of this repository and is taken
    as the parameter [unicode_lower]. *)
Definition is_ascii (c : char) : bool := (c <? 128)%N.

Definition ascii_lower (c : char) : char :=
  if ((65 <=? c) && (c <=? 90))%N then (c + 32)%N else c.

Definition lower (unicode_lower : str -> str) (s : str) : str :=
  if forallb is_ascii s then map ascii_lower s else unicode_lower s.

(** [sum] of a sequence of ints. *)
Definition sum (l : list Z) : Z := fold_left Z.add l 0.

(** [l.sort(key=key)]: the sort is stable, so its result is the one list
    that is ordered by key and keeps equal keys in their order of arrival;
    it is computed here by insertion. *)
Section Sort.
Context {A : Type} (key : A -> Z).

Fixpoint insert_by_key (x : A) (l : list A) : list A :=
  match l with
  | [] => [x]
  | y :: l' =>
      if key x <=? key y then x :: l else y :: insert_by_key x l'
  end.

Fixpoint sort_by_key (l : list A) : list A :=
  match l with
  | [] => []
  | x :: l' => insert_by_key x (sort_by_key l')
  end.
End Sort.

(** [l[:k]]: a negative [k] counts from the end, and both ends are clamped
    to the list. *)
Definition slice_to {A : Type} (k : Z) (l : list A) : list A :=
  if k <? 0 then firstn (Z.to_nat (Z.of_nat (List.length l) + k)) l
  else firstn (Z.to_nat k) l.

(** ** Python objects and exceptions *)

(** The exceptions the operations below raise. *)
Inductive exn : Type :=
| TypeError
| KeyError
| IndexError
| AttributeError.

(** The outcome of evaluating an expression: a value, or a raised
    exception. *)
Inductive result (A : Type) : Type :=
| Ok (a : A)
| Raise (e : exn).

Arguments Ok {A} a.
Arguments Raise {A} e.

Definition bind {A B : Type} (r : result A) (k : A -> result B) : result B :=
  match r with
  | Ok a => k a
  | Raise e => Raise e
  end.

Notation "x <- r ;; k" := (bind r (fun x => k))
  (at level 61, r at next level, right associativity).

(** The objects [resp.json()] can return, which are also the objects a
    request payload is built from. A dict keeps its items in insertion
    order; the dicts of a parsed body have distinct keys. *)
Inductive value : Type :=
| PyNone
| PyBool (b : bool)
| PyInt (n : Z)
| PyFloat (x : float)
| PyStr (s : str)
| PyList (l : list value)
| PyDict (d : list (str * value)).

Fixpoint dict_lookup (key : str) (d : list (str * value)) : option value :=
  match d with
  | [] => None
  | (k, v) :: d' => if str_eqb k key then Some v else dict_lookup key d'
  end.

(** [bool(v)], the truth value tested by [if] and [and]. *)
Definition truthy (v : value) : bool :=
  match v with
  | PyNone => false
  | PyBool b => b
  | PyInt n => negb (n =? 0)
  | PyFloat x => negb (PrimFloat.eqb x 0%float)
  | PyStr s => match s with [] => false | _ :: _ => true end
  | PyList l => match l with [] => false | _ :: _ => true end
  | PyDict d => match d with [] => false | _ :: _ => true end
  end.

(** [key in v] for a string [key]. *)
Definition py_in (key : str) (v : value) : result bool :=
  match v with
  | PyDict d =>
      Ok (match dict_lookup key d with Some _ => true | None => false end)
  | PyList l =>
      Ok (existsb (fun x => match x with
                            | PyStr s => str_eqb s key
                            | _ => false
                            end) l)
  | PyStr s => Ok (str_in key s)
  | PyNone | PyBool _ | PyInt _ | PyFloat _ => Raise TypeError
  end.

(** [v[key]] for a string [key]. *)
Definition getitem_str (v : value) (key : str) : result value :=
  match v with
  | PyDict d =>
      match dict_lookup key d with
      | Some x => Ok x
      | None => Raise KeyError
      end
  | _ => Raise TypeError
  end.

(** [l[i]] on a sequence of length [len]: the position read, if any. *)
Definition seq_index (len : nat) (i : Z) : option nat :=
  if (0 <=? i) && (i <? Z.of_nat len) then Some (Z.to_nat i)
  else if (- Z.of_nat len <=? i) && (i <? 0) then Some (Z.to_nat (Z.of_nat len + i))
  else None.

(** [v[i]] for an int [i]. The keys of a parsed dict are strings, so an
    int is never one of them. *)
Definition getitem_int (v : value) (i : Z) : result value :=
  match v with
  | PyList l =>
      match seq_index (List.length l) i with
      | Some n => match nth_error l n with
                  | Some x => Ok x
                  | None => Raise IndexError
                  end
      | None => Raise IndexError
      end
  | PyStr s =>
      match seq_index (List.length s) i with
      | Some n => match nth_error s n with
                  | Some c => Ok (PyStr [c])
                  | None => Raise IndexError
                  end
      | None => Raise IndexError
      end
  | PyDict _ => Raise KeyError
  | PyNone | PyBool _ | PyInt _ | PyFloat _ => Raise TypeError
  end.

(** [v.get(key, default)]: a method of dicts only. *)
Definition get (v : value) (key : str) (default : value) : result value :=
  match v with
  | PyDict d =>
      Ok (match dict_lookup key d with Some x => x | None => default end)
  | _ => Raise AttributeError
  end.

(** The items [for p in v] runs over. *)
Definition iter (v : value) : result (list value) :=
  match v with
  | PyList l => Ok l
  | PyDict d => Ok (map (fun kv => PyStr (fst kv)) d)
  | PyStr s => Ok (map (fun c => PyStr [c]) s)
  | PyNone | PyBool _ | PyInt _ | PyFloat _ => Raise TypeError
  end.

(** [v.strip()]: a method of strings only. *)
Definition strip_method (v : value) : result str :=
  match v with
  | PyStr s => Ok (strip s)
  | _ => Raise AttributeError
  end.

End Py.

Import Py.

(** ** Tiny RAG (knowledge base) *)

Record TinyRAG : Type := { docs : list str }.

(** [TinyRAG.__init__] *)
Definition TinyRAG_init : TinyRAG :=
  {| docs :=
       [ lit "VPN setup requires defining tunnel interfaces, encryption, and peer IPs.";
         lit "ACLs should be applied carefully to avoid blocking legitimate traffic.";
         lit "Routing updates need proper redistribution to prevent loops.";
         lit "Device commands must match OS syntax (Cisco IOS, Juniper Junos, etc.)." ] |}.

(** The default value of [retrieve]'s parameter [k]. *)
Definition default_k : Z := 3.

Section Retriever.
Variable unicode_lower : str -> str.

(** [sum(1 for w in query_words if w in doc.lower())] *)
Definition doc_score (query_words : list str) (doc : str) : Z :=
  sum (map (fun _ => 1)
           (filter (fun w => str_in w (lower unicode_lower doc)) query_words)).

(** One turn of the loop over [self.docs]. *)
Definition score_step (query_words : list str)
           (scored : list (Z * str)) (doc : str) : list (Z * str) :=
  let score := doc_score query_words doc in
  if score >? 0 then scored ++ [(score, doc)] else scored.

(** [TinyRAG.retrieve] *)
Definition retrieve (self : TinyRAG) (query : str) (k : Z) : list str :=
  let query_words := split (lower unicode_lower query) in
  let scored := fold_left (score_step query_words) (docs self) [] in
  let scored := sort_by_key (fun x => - fst x) scored in
  map snd (slice_to k scored).
End Retriever.


(** ** Gemini client *)

Definition MODEL_NAME : str := lit "gemini-2.0-flash-lite".

Definition API_URL : str :=
  lit "https://generativelanguage.googleapis.com/v1beta/models/"
  ++ MODEL_NAME ++ lit ":generateContent".

(** The arguments of the one call [requests.post(...)]. *)
Record request : Type := {
  req_url : str;
  req_headers : list (str * str);
  req_params : list (str * str);
  req_json : value;
  req_timeout : Z
}.

(** What the [try] block ends with: [requests.post] or [resp.json()]
    raised an exception [e], given here by the text of [str(e)], or the body
    was parsed into [data]. *)
Inductive post_outcome : Type :=
| Raised (e : str)
| Parsed (data : value).

(** A computation that may call the remote service: it returns, or posts
    a request and goes on with the outcome. *)
Inductive io (A : Type) : Type :=
| Ret (a : A)
| Post (req : request) (k : post_outcome -> io A).

Arguments Ret {A} a.
Arguments Post {A} req k.

(** Running a computation against a remote service [service], and the
    requests it sends on the way. *)
Fixpoint run {A : Type} (service : request -> post_outcome) (m : io A) : A :=
  match m with
  | Ret a => a
  | Post req k => run service (k (service req))
  end.

Fixpoint requests_sent {A : Type} (service : request -> post_outcome)
         (m : io A) : list request :=
  match m with
  | Ret _ => []
  | Post req k => req :: requests_sent service (k (service req))
  end.

(** The two code points of the warning glyph, U+26A0 U+FE0F. *)
Definition warning_glyph : str := [9888%N; 65039%N].

Definition no_usable_text : str :=
  warning_glyph ++ lit " Gemini API returned no usable text.".

Definition request_error (e : str) : str :=
  warning_glyph ++ lit " Network/Request error: " ++ e.

(** The loop [for p in parts]: the value returned from inside it, or
    [None] when it runs to its end. *)
Fixpoint first_text (parts : list value) : result (option str) :=
  match parts with
  | [] => Ok None
  | p :: rest =>
      has <- py_in (lit "text") p ;;
      cond <- (if has : bool
               then t <- getitem_str p (lit "text") ;; Ok (truthy t)
               else Ok false) ;;
      if cond : bool
      then t <- getitem_str p (lit "text") ;;
           s <- strip_method t ;;
           Ok (Some s)
      else first_text rest
  end.

(** The statements of [gemini_generate] after the [try] block. *)
Definition extract_text (data : value) : result str :=
  has <- py_in (lit "candidates") data ;;
  cond <- (if has : bool
           then c <- getitem_str data (lit "candidates") ;; Ok (truthy c)
           else Ok false) ;;
  if cond : bool
  then
    cands <- getitem_str data (lit "candidates") ;;
    cand <- getitem_int cands 0 ;;
    content <- get cand (lit "content") (PyDict []) ;;
    parts <- get content (lit "parts") (PyList []) ;;
    items <- iter parts ;;
    found <- first_text items ;;
    match found with
    | Some s => Ok s
    | None => Ok no_usable_text
    end
  else Ok no_usable_text.

Definition default_max_tokens : Z := 300.

(** [gemini_generate] *)
Definition gemini_generate (api_key prompt : str) (max_tokens : Z)
  : io (result str) :=
  let headers := [(lit "Content-Type", lit "application/json")] in
  let params := [(lit "key", api_key)] in
  let payload :=
    PyDict
      [ (lit "contents",
         PyList [PyDict [ (lit "role", PyStr (lit "user"));
                          (lit "parts",
                           PyList [PyDict [(lit "text", PyStr prompt)]]) ]]);
        (lit "generationConfig",
         (* the binary64 value of the literal 0.2 *)
         PyDict [ (lit "temperature", PyFloat 0x1.999999999999ap-3%float);
                  (lit "maxOutputTokens", PyInt max_tokens) ]) ] in
  Post {| req_url := API_URL; req_headers := headers; req_params := params;
          req_json := payload; req_timeout := 30 |}
       (fun outcome =>
          match outcome with
          | Raised e => Ret (Ok (request_error e))
          | Parsed data => Ret (extract_text data)
          end).

(** ** Agentic AI pipeline *)

(** The f-string of [agentic_network_configurator]. *)
Definition prompt_template (intent context : str) : str :=
  lit "
You are an expert network engineer AI assistant. Translate the high-level intent into specific, error-free device configurations.

Intent:
" ++ intent ++ lit "

Knowledge Base:
" ++ context ++ lit "

Tasks:
1. Generate device commands and configurations.
2. Validate commands syntactically.
3. Suggest optimization if needed.
4. Provide concise explanation for each configuration.

Return a structured report.
".

Section Orchestrator.
Variable unicode_lower : str -> str.

(** [agentic_network_configurator] *)
Definition agentic_network_configurator (api_key intent : str)
           (rag : TinyRAG) : io (result str) :=
  let context := join (lit " ") (retrieve unicode_lower rag intent default_k) in
  let prompt := prompt_template intent context in
  gemini_generate api_key prompt 350.
End Orchestrator.

(** ** Shapes of a parsed body

    The response schema of the service is
    [{"candidates": [{"content": {"parts": [{"text": <string>}]}}]}]. The
    predicates below name the shapes the claims speak of: dicts, lists and
    strings sit where the schema has them, and items may be missing or
    empty. *)

(** A part that is a dict, with no ["text"] item or with one that is
    empty (any value that tests false). *)
Definition part_without_text (p : value) : Prop :=
  exists d, p = PyDict d /\
            (dict_lookup (lit "text") d = None \/
             exists t, dict_lookup (lit "text") d = Some t /\ truthy t = false).

(** A part that is a dict whose ["text"] item is the non-empty string
    [t]. *)
Definition part_with_text (p : value) (t : str) : Prop :=
  exists d, p = PyDict d /\
            dict_lookup (lit "text") d = Some (PyStr t) /\ t <> [].

(** A part that is a dict whose ["text"] item, when there is one, is a
    string. *)
Definition part_of_schema (p : value) : Prop :=
  exists d, p = PyDict d /\
            (dict_lookup (lit "text") d = None \/
             exists t, dict_lookup (lit "text") d = Some (PyStr t)).

(** A body that is a dict with a non-empty ["candidates"] list whose first
    candidate is the dict [cand]. *)
Definition body_with_candidate (data : value) (cand : list (str * value))
  : Prop :=
  exists d rest,
    data = PyDict d /\
    dict_lookup (lit "candidates") d = Some (PyList (PyDict cand :: rest)).

(** A body whose first candidate has a ["content"] dict with the
    ["parts"] list [parts]. *)
Definition body_with_parts (data : value) (parts : list value) : Prop :=
  exists cand content,
    body_with_candidate data cand /\
    dict_lookup (lit "content") cand = Some (PyDict content) /\
    dict_lookup (lit "parts") content = Some (PyList parts).

(** The well-formed but unexpected bodies: a dict whose ["candidates"] is
    missing or empty, whose first candidate has no ["content"], whose
    content has no ["parts"], or whose parts bear no non-empty text. *)
Inductive unusable_body : value -> Prop :=
| candidates_missing d :
    dict_lookup (lit "candidates") d = None ->
    unusable_body (PyDict d)
| candidates_empty d c :
    dict_lookup (lit "candidates") d = Some c -> truthy c = false ->
    unusable_body (PyDict d)
| content_missing data cand :
    body_with_candidate data cand ->
    dict_lookup (lit "content") cand = None ->
    unusable_body data
| parts_missing data cand content :
    body_with_candidate data cand ->
    dict_lookup (lit "content") cand = Some (PyDict content) ->
    dict_lookup (lit "parts") content = None ->
    unusable_body data
| text_missing data parts :
    body_with_parts data parts ->
    Forall part_without_text parts ->
    unusable_body data.

(** ** Bodies outside the schema *)

(** [None], a boolean or a number: a value that is no container. *)
Definition is_scalar (v : value) : bool :=
  match v with
  | PyNone | PyBool _ | PyInt _ | PyFloat _ => true
  | PyStr _ | PyList _ | PyDict _ => false
  end.

Definition is_dict (v : value) : bool :=
  match v with
  | PyDict _ => true
  | _ => false
  end.

Definition is_str (v : value) : bool :=
  match v with
  | PyStr _ => true
  | _ => false
  end.

(** ** The API key and the Streamlit page *)

(** A mapping from strings to strings: [os.environ], and the secrets of
    the page, whose values are taken as strings, as the annotation of
    [get_api_key] has it. *)
Definition mapping : Type := list (str * str).

Fixpoint mapping_get (key : str) (m : mapping) : option str :=
  match m with
  | [] => None
  | (k, v) :: m' => if str_eqb k key then Some v else mapping_get key m'
  end.

(** What ends the script early: the secrets could not be read, or the
    client raised. *)
Inductive script_exn : Type :=
| SecretsError
| ClientError (e : exn).

(** [get_api_key]. The default handed to [os.getenv] is an argument, so the
    secrets are looked up before the environment is. [secrets] is [None]
    when the store cannot be read, and the lookup raises; the function then
    returns nothing, which is [None] here. *)
Definition get_api_key (environ : mapping) (secrets : option mapping)
  : option str :=
  match secrets with
  | None => None
  | Some m =>
      let default :=
        match mapping_get (lit "GEMINI_API_KEY") m with
        | Some v => v
        | None => []
        end in
      Some (match mapping_get (lit "GEMINI_API_KEY") environ with
            | Some v => v
            | None => default
            end)
  end.

(** The calls that put something on the page. *)
Inductive st_call : Type :=
| st_set_page_config (page_title layout : str)
| st_title (body : str)
| st_text_area (label : str) (height : Z)
| st_button (label : str)
| st_error (body : str)
| st_warning (body : str)
| st_spinner (text : str)
| st_subheader (body : str)
| st_markdown (body : str).

Fixpoint io_bind {A B : Type} (m : io A) (f : A -> io B) : io B :=
  match m with
  | Ret a => f a
  | Post req k => Post req (fun outcome => io_bind (k outcome) f)
  end.

(** The calls every run of the script makes, up to the button. *)
Definition page_head : list st_call :=
  [ st_set_page_config (lit "Intelligent Network Configurator") (lit "wide");
    st_title ([129302%N]
              ++ lit " MANISH - DATA CENTER Intelligent Network Configurator Co-Pilot");
    st_text_area
      (lit "Enter high-level network intent (e.g., 'Set up branch office VPN'):")
      150;
    st_button (lit "Generate Configuration") ].

(** One run of the script of the page: [intent_input] is what the text
    area returns and [clicked] what the button returns. The result is the
    list of calls made, in order, and the exception that ended the run, if
    one did. *)
Definition page (unicode_lower : str -> str) (environ : mapping)
           (secrets : option mapping) (intent_input : str) (clicked : bool)
  : io (list st_call * option script_exn) :=
  if clicked then
    match get_api_key environ secrets with
    | None => Ret (page_head, Some SecretsError)
    | Some api_key =>
        match api_key with
        | [] =>
            Ret (page_head
                 ++ [st_error (lit "GEMINI_API_KEY not found. Set environment variable or Streamlit secrets.")],
                 None)
        | _ :: _ =>
            match strip intent_input with
            | [] =>
                Ret (page_head
                     ++ [st_warning (lit "Please enter a network intent.")],
                     None)
            | _ :: _ =>
                let rag := TinyRAG_init in
                io_bind
                  (agentic_network_configurator unicode_lower api_key
                     (strip intent_input) rag)
                  (fun report =>
                     match report with
                     | Ok text =>
                         Ret (page_head
                              ++ [ st_spinner (lit "Generating configurations...");
                                   st_subheader
                                     ([128221%N] ++ lit " Configuration Output");
                                   st_markdown text ],
                              None)
                     | Raise e =>
                         Ret (page_head
                              ++ [st_spinner (lit "Generating configurations...")],
                              Some (ClientError e))
                     end)
            end
        end
    end
  else Ret (page_head, None).

(** * Properties *)

(** ** Strings *)

Lemma str_eqb_eq (a b : str) : str_eqb a b = true <-> a = b.
Proof.
  revert b; induction a as [|x a IH]; intros [|y b]; simpl;
    try (split; [discriminate | congruence]); [tauto|].
  unfold char_eqb. rewrite andb_true_iff, N.eqb_eq, IH.
  split; [intros [-> ->]; reflexivity | intros H; inversion H; auto].
Qed.

Lemma str_eqb_refl (a : str) : str_eqb a a = true.
Proof. apply str_eqb_eq; reflexivity. Qed.

Lemma startswith_iff (s w : str) :
  startswith s w = true <-> exists r, s = w ++ r.
Proof.
  revert s; induction w as [|a w IH]; intros s; simpl.
  - split; [intros _; exists s; reflexivity | reflexivity].
  - destruct s as [|b s].
    + split; [discriminate | intros [r H]; discriminate].
    + unfold char_eqb. rewrite andb_true_iff, N.eqb_eq, IH. split.
      * intros [-> [r ->]]. exists r; reflexivity.
      * intros [r H]. inversion H; subst. split; [reflexivity | eauto].
Qed.

(** [w in s] holds exactly when [s] is [w] with something before and
    something after. *)
Lemma str_in_iff (w s : str) :
  str_in w s = true <-> exists l r, s = l ++ w ++ r.
Proof.
  induction s as [|c s IH]; simpl; rewrite orb_true_iff, startswith_iff.
  - split.
    + intros [[r H] | H]; [|discriminate]. exists [], r. exact H.
    + intros [l [r H]]. left. destruct l; [|discriminate]. exists r. exact H.
  - rewrite IH. split.
    + intros [[r H] | [l [r H]]].
      * exists [], r. exact H.
      * exists (c :: l), r. simpl. rewrite H. reflexivity.
    + intros [[|c' l] [r H]].
      * left. exists r. exact H.
      * right. inversion H; subst. exists l, r. reflexivity.
Qed.

Lemma lstrip_spec (s : str) :
  exists l, s = l ++ lstrip s /\ Forall (fun c => isspace c = true) l /\
            forall c t, lstrip s = c :: t -> isspace c = false.
Proof.
  induction s as [|c s [l [E [Hl Hh]]]]; simpl.
  - exists []. repeat split; [constructor | discriminate].
  - destruct (isspace c) eqn:Hc.
    + exists (c :: l). simpl. rewrite <- E. repeat split; auto.
    + exists []. repeat split; [constructor|]. intros c' t H. congruence.
Qed.

Lemma rstrip_spec (s : str) :
  exists r, s = rstrip s ++ r /\ Forall (fun c => isspace c = true) r /\
            forall c t, rstrip s = t ++ [c] -> isspace c = false.
Proof.
  unfold rstrip. destruct (lstrip_spec (rev s)) as [l [E [Hl Hh]]].
  exists (rev l). repeat split.
  - rewrite <- rev_app_distr, <- E, rev_involutive. reflexivity.
  - apply Forall_rev. exact Hl.
  - intros c t H. apply (Hh c (rev t)).
    rewrite <- (rev_involutive (lstrip (rev s))), H, rev_app_distr.
    reflexivity.
Qed.

(** [strip] cuts a run of whitespace off each end, and what remains
    neither starts nor ends with whitespace. *)
Lemma strip_spec (s : str) :
  exists l r, s = l ++ strip s ++ r /\
              Forall (fun c => isspace c = true) l /\
              Forall (fun c => isspace c = true) r /\
              (forall c t, strip s = c :: t -> isspace c = false) /\
              (forall c t, strip s = t ++ [c] -> isspace c = false).
Proof.
  unfold strip. destruct (lstrip_spec s) as [l [El [Hl Hh]]].
  destruct (rstrip_spec (lstrip s)) as [r [Er [Hr Ht]]].
  exists l, r. repeat split; auto.
  - rewrite <- Er. exact El.
  - intros c t H. rewrite H in Er. simpl in Er. apply (Hh c (t ++ r)).
    exact Er.
Qed.

Lemma flush_app (cur : str) (a b : list str) :
  flush cur (a ++ b) = flush cur a ++ b.
Proof. destruct cur; reflexivity. Qed.

Lemma split_from_app_space (cur a b : str) (c : char) :
  isspace c = true ->
  split_from cur (a ++ c :: b) = split_from cur a ++ split b.
Proof.
  intros Hc. revert cur; induction a as [|x a IH]; intros cur; simpl.
  - rewrite Hc. apply (flush_app cur [] (split b)).
  - destruct (isspace x).
    + rewrite IH. apply flush_app.
    + apply IH.
Qed.

Lemma split_from_run (t cur s : str) :
  Forall (fun c => isspace c = false) t ->
  split_from cur (t ++ s) = split_from (rev t ++ cur) s.
Proof.
  intros H. revert cur; induction H as [|x t Hx _ IH]; intros cur; simpl.
  - reflexivity.
  - rewrite Hx, IH, <- app_assoc. reflexivity.
Qed.

(** The three equations that determine [split]: nothing in the empty
    string, a run of non-whitespace is one token, and a whitespace code
    point separates what is before it from what is after it. *)
Lemma split_nil : split [] = [].
Proof. reflexivity. Qed.

Lemma split_token (t : str) :
  t <> [] -> Forall (fun c => isspace c = false) t -> split t = [t].
Proof.
  intros Hne H. unfold split.
  rewrite <- (app_nil_r t) at 1. rewrite split_from_run by exact H.
  rewrite app_nil_r. unfold split_from, flush. destruct (rev t) eqn:E.
  - apply (f_equal (@rev char)) in E. rewrite rev_involutive in E.
    contradiction.
  - rewrite <- E, rev_involutive. reflexivity.
Qed.

Lemma split_app_space (a b : str) (c : char) :
  isspace c = true -> split (a ++ c :: b) = split a ++ split b.
Proof. apply split_from_app_space. Qed.

Lemma split_from_tokens (cur s : str) :
  Forall (fun c => isspace c = false) cur ->
  Forall (fun t => t <> [] /\ Forall (fun c => isspace c = false) t)
         (split_from cur s).
Proof.
  assert (Hflush : forall cur rest,
             Forall (fun c => isspace c = false) cur ->
             Forall (fun t => t <> [] /\ Forall (fun c => isspace c = false) t) rest ->
             Forall (fun t => t <> [] /\ Forall (fun c => isspace c = false) t)
                    (flush cur rest)).
  { intros [|x cur'] rest Hc Hr; simpl; [exact Hr|].
    constructor; [|exact Hr]. split.
    - intros E. apply (f_equal (@List.length char)) in E.
      rewrite length_app in E. simpl in E. lia.
    - apply Forall_app; split; [apply Forall_rev; inversion Hc; auto|].
      inversion Hc; auto. }
  revert cur; induction s as [|c s IH]; intros cur Hcur; simpl.
  - apply Hflush; [exact Hcur | constructor].
  - destruct (isspace c) eqn:Hc.
    + apply Hflush; [exact Hcur | apply IH; constructor].
    + apply IH. constructor; assumption.
Qed.

(** Every token of [split] is non-empty and free of whitespace. *)
Lemma split_tokens (s : str) :
  Forall (fun t => t <> [] /\ Forall (fun c => isspace c = false) t) (split s).
Proof. apply split_from_tokens. constructor. Qed.

Lemma lower_nil (ul : str -> str) : lower ul [] = [].
Proof. reflexivity. Qed.

Lemma sum_ones {A : Type} (l : list A) :
  sum (map (fun _ => 1) l) = Z.of_nat (List.length l).
Proof.
  unfold sum.
  assert (H : forall acc, fold_left Z.add (map (fun _ : A => 1) l) acc
                          = acc + Z.of_nat (List.length l)).
  { induction l as [|x l IH]; intros acc; simpl List.length; simpl fold_left.
    - lia.
    - rewrite IH. lia. }
  rewrite H. lia.
Qed.

(** ** The stable sort *)

Section SortFacts.
Context {A : Type} (key : A -> Z).

Lemma insert_by_key_perm (x : A) (l : list A) :
  Permutation (insert_by_key key x l) (x :: l).
Proof.
  induction l as [|y l IH]; simpl; [reflexivity|].
  destruct (key x <=? key y); [reflexivity|].
  rewrite IH. apply perm_swap.
Qed.

Lemma sort_by_key_perm (l : list A) : Permutation (sort_by_key key l) l.
Proof.
  induction l as [|x l IH]; simpl; [reflexivity|].
  rewrite insert_by_key_perm, IH. reflexivity.
Qed.

Lemma insert_by_key_ordered (x : A) (l : list A) :
  StronglySorted (fun a b => key a <= key b) l ->
  StronglySorted (fun a b => key a <= key b) (insert_by_key key x l).
Proof.
  induction 1 as [|y l Hl IH Hy]; simpl.
  - constructor; constructor.
  - destruct (key x <=? key y) eqn:E.
    + apply Z.leb_le in E. constructor; [constructor; assumption|].
      constructor; [exact E|].
      eapply Forall_impl; [|exact Hy]. simpl. intros; lia.
    + apply Z.leb_gt in E. constructor; [exact IH|].
      eapply Permutation_Forall;
        [symmetry; apply insert_by_key_perm|].
      constructor; [lia | exact Hy].
Qed.

Lemma sort_by_key_ordered (l : list A) :
  StronglySorted (fun a b => key a <= key b) (sort_by_key key l).
Proof.
  induction l as [|x l IH]; simpl; [constructor|].
  apply insert_by_key_ordered, IH.
Qed.

(** Stability: the elements of any one key come out in the order they
    went in. *)
Lemma insert_by_key_stable (v : Z) (x : A) (l : list A) :
  filter (fun a => key a =? v) (insert_by_key key x l)
  = filter (fun a => key a =? v) (x :: l).
Proof.
  induction l as [|y l IH]; [reflexivity|].
  simpl insert_by_key. destruct (key x <=? key y) eqn:E; [reflexivity|].
  apply Z.leb_gt in E. simpl in IH |- *. rewrite IH.
  destruct (key x =? v) eqn:Ex, (key y =? v) eqn:Ey; try reflexivity.
  apply Z.eqb_eq in Ex, Ey. lia.
Qed.

Lemma sort_by_key_stable (v : Z) (l : list A) :
  filter (fun a => key a =? v) (sort_by_key key l)
  = filter (fun a => key a =? v) l.
Proof.
  induction l as [|x l IH]; [reflexivity|].
  simpl sort_by_key. rewrite insert_by_key_stable. simpl. rewrite IH.
  reflexivity.
Qed.

Lemma sort_by_key_length (l : list A) :
  List.length (sort_by_key key l) = List.length l.
Proof. apply Permutation_length, sort_by_key_perm. Qed.
End SortFacts.

(** Sorting pairs built from the elements is sorting the elements. *)
Lemma sort_by_key_map {A B : Type} (f : A -> B) (key : B -> Z) (l : list A) :
  sort_by_key key (map f l) = map f (sort_by_key (fun a => key (f a)) l).
Proof.
  assert (Hins : forall x l', insert_by_key key (f x) (map f l')
                 = map f (insert_by_key (fun a => key (f a)) x l')).
  { intros x l'. induction l' as [|y l' IH]; simpl; [reflexivity|].
    destruct (key (f x) <=? key (f y)); simpl; [reflexivity|].
    rewrite IH. reflexivity. }
  induction l as [|x l IH]; simpl; [reflexivity|].
  rewrite IH. apply Hins.
Qed.

(** ** Slices *)

Lemma slice_to_firstn {A : Type} (k : Z) (l : list A) :
  exists n, slice_to k l = firstn n l.
Proof. unfold slice_to. destruct (k <? 0); eauto. Qed.

Lemma slice_to_map {A B : Type} (f : A -> B) (k : Z) (l : list A) :
  slice_to k (map f l) = map f (slice_to k l).
Proof.
  unfold slice_to. rewrite length_map.
  destruct (k <? 0); apply firstn_map.
Qed.

Lemma slice_to_length_nonneg {A : Type} (k : Z) (l : list A) :
  0 <= k -> Z.of_nat (List.length (slice_to k l)) <= k.
Proof.
  intros Hk. unfold slice_to.
  destruct (k <? 0) eqn:E; [apply Z.ltb_lt in E; lia|].
  rewrite length_firstn. lia.
Qed.

Lemma slice_to_all {A : Type} (k : Z) (l : list A) :
  Z.of_nat (List.length l) <= k -> slice_to k l = l.
Proof.
  intros Hk. unfold slice_to.
  destruct (k <? 0) eqn:E; [apply Z.ltb_lt in E; lia|].
  apply firstn_all2. lia.
Qed.

Lemma slice_to_negative {A : Type} (k : Z) (l : list A) :
  k < 0 -> slice_to k l = firstn (List.length l - Z.to_nat (- k)) l.
Proof.
  intros Hk. unfold slice_to.
  destruct (k <? 0) eqn:E; [|apply Z.ltb_ge in E; lia].
  f_equal. lia.
Qed.

Lemma firstn_In {A : Type} (n : nat) (l : list A) (x : A) :
  In x (firstn n l) -> In x l.
Proof.
  intros H. rewrite <- (firstn_skipn n l). apply in_or_app. left. exact H.
Qed.

Lemma firstn_StronglySorted {A : Type} (R : A -> A -> Prop) (n : nat)
      (l : list A) :
  StronglySorted R l -> StronglySorted R (firstn n l).
Proof.
  intros H. revert n; induction H as [|x l Hl IH Hx]; intros [|n]; simpl;
    try constructor.
  - apply IH.
  - apply Forall_forall. intros y Hy. rewrite Forall_forall in Hx.
    apply Hx. eapply firstn_In. exact Hy.
Qed.

Lemma firstn_filter_prefix {A : Type} (f : A -> bool) (n : nat) (l : list A) :
  exists rest, filter f l = filter f (firstn n l) ++ rest.
Proof.
  exists (filter f (skipn n l)).
  rewrite <- filter_app, firstn_skipn. reflexivity.
Qed.

(** ** The retriever *)

Section RetrieverFacts.
Variable ul : str -> str.

Lemma doc_score_count (qw : list str) (doc : str) :
  doc_score ul qw doc
  = Z.of_nat (List.length (filter (fun w => str_in w (lower ul doc)) qw)).
Proof. unfold doc_score. apply sum_ones. Qed.

Lemma doc_score_nonneg (qw : list str) (doc : str) : 0 <= doc_score ul qw doc.
Proof. rewrite doc_score_count. lia. Qed.

Lemma doc_score_cons (w : str) (qw : list str) (doc : str) :
  doc_score ul (w :: qw) doc
  = (if str_in w (lower ul doc) then 1 else 0) + doc_score ul qw doc.
Proof.
  rewrite !doc_score_count. simpl filter.
  destruct (str_in w (lower ul doc)); simpl List.length; lia.
Qed.

(** The loop over [self.docs] appends, in order, the scored pair of every
    snippet with a positive score. *)
Lemma fold_score_step (qw : list str) (ds : list str) (acc : list (Z * str)) :
  fold_left (score_step ul qw) ds acc
  = acc ++ map (fun d => (doc_score ul qw d, d))
               (filter (fun d => doc_score ul qw d >? 0) ds).
Proof.
  revert acc; induction ds as [|d ds IH]; intros acc; simpl.
  - rewrite app_nil_r. reflexivity.
  - rewrite IH. unfold score_step.
    destruct (doc_score ul qw d >? 0); simpl; [|reflexivity].
    rewrite <- app_assoc. reflexivity.
Qed.

(** [retrieve] is the slice of the stably sorted snippets of positive
    score. *)
Lemma retrieve_eq (self : TinyRAG) (query : str) (k : Z) :
  retrieve ul self query k
  = slice_to k
      (sort_by_key (fun d => - doc_score ul (split (lower ul query)) d)
                   (filter (fun d => doc_score ul (split (lower ul query)) d >? 0)
                           (docs self))).
Proof.
  unfold retrieve. cbv zeta. rewrite fold_score_step. simpl app.
  rewrite (sort_by_key_map (fun d => (doc_score ul _ d, d))
                           (fun x => - fst x)).
  rewrite slice_to_map, map_map. simpl. apply map_id.
Qed.
End RetrieverFacts.

Lemma filter_filter_and {A : Type} (f g : A -> bool) (l : list A) :
  filter f (filter g l) = filter (fun x => f x && g x) l.
Proof.
  induction l as [|x l IH]; simpl; [reflexivity|].
  destruct (g x); simpl; rewrite ?andb_true_r, ?andb_false_r, IH;
    reflexivity.
Qed.

Section RetrieverClaims.
Variable ul : str -> str.

Lemma retrieve_sorted_In (self : TinyRAG) (query d : str) :
  In d (sort_by_key (fun d => - doc_score ul (split (lower ul query)) d)
          (filter (fun d => doc_score ul (split (lower ul query)) d >? 0)
                  (docs self)))
  <-> In d (docs self) /\ 0 < doc_score ul (split (lower ul query)) d.
Proof.
  split.
  - intros H. apply (Permutation_in _ (sort_by_key_perm _ _)) in H.
    apply filter_In in H. rewrite Z.gtb_lt in H. exact H.
  - intros H.
    apply (Permutation_in _ (Permutation_sym (sort_by_key_perm _ _))).
    apply filter_In. rewrite Z.gtb_lt. exact H.
Qed.

Lemma retrieve_all (self : TinyRAG) (query : str) (k : Z) :
  Z.of_nat (List.length (docs self)) <= k ->
  retrieve ul self query k
  = sort_by_key (fun d => - doc_score ul (split (lower ul query)) d)
      (filter (fun d => doc_score ul (split (lower ul query)) d >? 0)
              (docs self)).
Proof.
  intros Hk. rewrite retrieve_eq. apply slice_to_all.
  rewrite sort_by_key_length.
  pose proof (filter_length_le
                (fun d => doc_score ul (split (lower ul query)) d >? 0)
                (docs self)).
  lia.
Qed.

Lemma retrieve_In (self : TinyRAG) (query : str) (k : Z) (d : str) :
  In d (retrieve ul self query k) ->
  In d (docs self) /\ 0 < doc_score ul (split (lower ul query)) d.
Proof.
  rewrite retrieve_eq.
  match goal with
  | |- In d (slice_to k ?l) -> _ =>
      destruct (slice_to_firstn k l) as [n ->]
  end.
  intros H. apply firstn_In, retrieve_sorted_In in H. exact H.
Qed.

Lemma retrieve_empty_query (self : TinyRAG) (k : Z) :
  retrieve ul self [] k = [].
Proof.
  destruct (retrieve ul self [] k) as [|d r] eqn:E; [reflexivity|].
  assert (H : In d (retrieve ul self [] k)) by (rewrite E; left; reflexivity).
  apply retrieve_In in H. destruct H as [_ H].
  change (0 < 0) in H. lia.
Qed.

(** C2, as amended: for every query and every k, the snippets [retrieve]
    returns are elements of the collection, are ordered by non-increasing
    score, and among snippets of one score keep the order of the
    collection (for each score, the returned snippets of that score are
    an initial part of the collection's snippets of that score); when k is
    not negative, at most k snippets are returned. *)
Theorem retrieve_top_k (self : TinyRAG) (query : str) (k : Z) :
  let score := doc_score ul (split (lower ul query)) in
  let result := retrieve ul self query k in
  (0 <= k -> Z.of_nat (List.length result) <= k) /\
  (forall d, In d result -> In d (docs self)) /\
  StronglySorted (fun a b => score b <= score a) result /\
  (forall v, exists rest,
      filter (fun d => score d =? v) (docs self)
      = filter (fun d => score d =? v) result ++ rest).
Proof.
  intros score result. subst result. rewrite retrieve_eq. fold score.
  set (qual := filter (fun d => score d >? 0) (docs self)).
  set (sorted := sort_by_key (fun d => - score d) qual).
  destruct (slice_to_firstn k sorted) as [n Hn].
  split; [intros Hk; apply slice_to_length_nonneg, Hk|].
  rewrite Hn. split; [|split].
  - intros d Hd. apply firstn_In in Hd.
    apply (retrieve_sorted_In self query d) in Hd. apply Hd.
  - apply firstn_StronglySorted.
    assert (Hmono : forall l,
               StronglySorted (fun a b => - score a <= - score b) l ->
               StronglySorted (fun a b => score b <= score a) l).
    { induction 1 as [|x l _ IH Hx]; constructor; [exact IH|].
      eapply Forall_impl; [|exact Hx]. simpl. intros; lia. }
    apply Hmono, sort_by_key_ordered.
  - intros v.
    destruct (firstn_filter_prefix (fun d => score d =? v) n sorted)
      as [rest Hrest].
    assert (Hst : filter (fun d => score d =? v) sorted
                  = filter (fun d => score d =? v) qual).
    { unfold sorted.
      rewrite (filter_ext _ (fun d => - score d =? - v)).
      - rewrite sort_by_key_stable. apply filter_ext.
        intros a. destruct (score a =? v) eqn:E1, (- score a =? - v) eqn:E2;
          try reflexivity;
          rewrite ?Z.eqb_eq, ?Z.eqb_neq in E1, E2; lia.
      - intros a. destruct (score a =? v) eqn:E1, (- score a =? - v) eqn:E2;
          try reflexivity;
          rewrite ?Z.eqb_eq, ?Z.eqb_neq in E1, E2; lia. }
    rewrite Hst in Hrest. unfold qual in Hrest.
    rewrite filter_filter_and in Hrest.
    destruct (Z_lt_le_dec 0 v) as [Hv | Hv].
    + exists rest. rewrite <- Hrest. apply filter_ext. intros a.
      destruct (score a =? v) eqn:E1; [|reflexivity].
      apply Z.eqb_eq in E1. simpl. symmetry. apply Z.gtb_lt. lia.
    + exists (filter (fun d => score d =? v) (docs self)).
      rewrite (filter_ext _ (fun _ => false)) in Hrest.
      * assert (Hnil : forall l : list str, filter (fun _ => false) l = [])
          by (induction l; auto).
        rewrite Hnil in Hrest. symmetry in Hrest.
        apply app_eq_nil in Hrest. destruct Hrest as [-> _]. reflexivity.
      * intros a. destruct (score a =? v) eqn:E1; [|reflexivity].
        apply Z.eqb_eq in E1. simpl. rewrite Z.gtb_ltb. apply Z.ltb_ge. lia.
Qed.

(** C6: the tokens of a query are the non-empty whitespace-free runs of
    the lowercased query; a snippet's score is the number of tokens, each
    counted as often as it occurs in the query, that are substrings of the
    lowercased snippet; [retrieve] returns only snippets of positive score
    and, when k leaves room, every such snippet; an empty query has no
    token, scores every snippet 0 and retrieves nothing. *)
Theorem retrieve_scores_by_tokens (self : TinyRAG) (query : str) :
  let query_words := split (lower ul query) in
  Forall (fun t => t <> [] /\ Forall (fun c => isspace c = false) t)
         query_words /\
  (forall doc,
      doc_score ul query_words doc
      = Z.of_nat (List.length
                    (filter (fun w => str_in w (lower ul doc)) query_words))) /\
  (forall w doc,
      str_in w (lower ul doc) = true
      <-> exists l r, lower ul doc = l ++ w ++ r) /\
  (forall k d, In d (retrieve ul self query k) ->
               In d (docs self) /\ 0 < doc_score ul query_words d) /\
  (forall k d, Z.of_nat (List.length (docs self)) <= k ->
               In d (docs self) -> 0 < doc_score ul query_words d ->
               In d (retrieve ul self query k)) /\
  split (lower ul []) = [] /\
  (forall doc, doc_score ul (split (lower ul [])) doc = 0) /\
  (forall k, retrieve ul self [] k = []).
Proof.
  intros query_words. repeat split.
  - apply split_tokens.
  - intros doc. apply doc_score_count.
  - apply str_in_iff.
  - apply str_in_iff.
  - apply (retrieve_In self query k d H).
  - apply (retrieve_In self query k d H).
  - intros k d Hk Hd Hs. rewrite retrieve_all by exact Hk.
    apply retrieve_sorted_In. split; assumption.
  - apply retrieve_empty_query.
Qed.
End RetrieverClaims.

(** C7: against the default knowledge base, [retrieve("vpn tunnel")] with
    the default k returns the VPN snippet first; its score is 2, and every
    other snippet of the collection scores lower. *)
Theorem retrieve_vpn_tunnel_first (ul : str -> str) :
  let vpn := lit "VPN setup requires defining tunnel interfaces, encryption, and peer IPs." in
  let score := doc_score ul (split (lower ul (lit "vpn tunnel"))) in
  hd_error (retrieve ul TinyRAG_init (lit "vpn tunnel") default_k) = Some vpn /\
  2 <= score vpn /\
  Forall (fun d => score d <= score vpn)
         (retrieve ul TinyRAG_init (lit "vpn tunnel") default_k) /\
  Forall (fun d => d = vpn \/ score d < score vpn) (docs TinyRAG_init).
Proof.
  intros vpn score.
  assert (Hr : retrieve ul TinyRAG_init (lit "vpn tunnel") default_k = [vpn])
    by (vm_compute; reflexivity).
  assert (Hv : score vpn = 2) by (vm_compute; reflexivity).
  rewrite Hr, Hv. repeat split.
  - lia.
  - repeat constructor. rewrite Hv. lia.
  - unfold TinyRAG_init, docs. constructor; [left; reflexivity|].
    repeat constructor; right; vm_compute; reflexivity.
Qed.

(** C9: for a negative k, [retrieve] returns the snippets of positive
    score, ranked, without the last |k| of them, which is the empty list
    exactly when |k| is at least their number; with the two snippets that
    qualify for "vpn acls" and k = -1 it returns exactly one snippet, so k
    does not bound the length of the result. *)
Theorem retrieve_negative_k (ul : str -> str) (self : TinyRAG) (query : str)
        (k : Z) :
  k < 0 ->
  let ranked := retrieve ul self query (Z.of_nat (List.length (docs self))) in
  List.length ranked
  = List.length (filter (fun d => doc_score ul (split (lower ul query)) d >? 0)
                        (docs self)) /\
  retrieve ul self query k
  = firstn (List.length ranked - Z.to_nat (- k)) ranked /\
  (retrieve ul self query k = [] <-> Z.of_nat (List.length ranked) <= - k) /\
  List.length (retrieve ul TinyRAG_init (lit "vpn acls")
                        (Z.of_nat (List.length (docs TinyRAG_init)))) = 2%nat /\
  List.length (retrieve ul TinyRAG_init (lit "vpn acls") (-1)) = 1%nat /\
  ~ Z.of_nat (List.length (retrieve ul TinyRAG_init (lit "vpn acls") (-1))) <= -1.
Proof.
  intros Hk ranked.
  assert (Hranked : ranked
            = sort_by_key (fun d => - doc_score ul (split (lower ul query)) d)
                (filter (fun d => doc_score ul (split (lower ul query)) d >? 0)
                        (docs self)))
    by (apply retrieve_all; lia).
  assert (Hcut : retrieve ul self query k
                 = firstn (List.length ranked - Z.to_nat (- k)) ranked).
  { rewrite retrieve_eq, <- Hranked. apply slice_to_negative, Hk. }
  split; [rewrite Hranked; apply sort_by_key_length|].
  split; [exact Hcut|]. split; [|repeat split; vm_compute; congruence].
  rewrite Hcut. split.
  - intros H. apply (f_equal (@List.length str)) in H.
    rewrite length_firstn in H. simpl in H. lia.
  - intros H. replace (List.length ranked - Z.to_nat (- k))%nat with 0%nat by lia.
    reflexivity.
Qed.

(** ** The Gemini client *)

Lemma gemini_generate_run (service : request -> post_outcome)
      (api_key prompt : str) (max_tokens : Z) :
  exists req,
    requests_sent service (gemini_generate api_key prompt max_tokens) = [req] /\
    run service (gemini_generate api_key prompt max_tokens)
    = match service req with
      | Raised e => Ok (request_error e)
      | Parsed data => extract_text data
      end.
Proof.
  unfold gemini_generate. eexists. split.
  - cbn [requests_sent]. destruct (service _); reflexivity.
  - cbn [run]. destruct (service _); reflexivity.
Qed.

Lemma getitem_int_head (x : value) (l : list value) :
  getitem_int (PyList (x :: l)) 0 = Ok x.
Proof.
  unfold getitem_int, seq_index.
  replace (0 <? Z.of_nat (List.length (x :: l))) with true
    by (symmetry; apply Z.ltb_lt; simpl List.length; lia).
  reflexivity.
Qed.

Lemma first_text_skip (p : value) (rest : list value) :
  part_without_text p -> first_text (p :: rest) = first_text rest.
Proof.
  intros [d [-> [H | [t [H Ht]]]]]; cbn [first_text py_in getitem_str bind];
    rewrite H; cbn [bind]; rewrite ?Ht; reflexivity.
Qed.

Lemma first_text_skip_all (pre rest : list value) :
  Forall part_without_text pre -> first_text (pre ++ rest) = first_text rest.
Proof.
  induction 1 as [|p pre Hp _ IH]; [reflexivity|].
  rewrite <- app_comm_cons, first_text_skip by exact Hp. exact IH.
Qed.

Lemma first_text_hit (p : value) (t : str) (rest : list value) :
  part_with_text p t -> first_text (p :: rest) = Ok (Some (strip t)).
Proof.
  intros [d [-> [H Ht]]]. cbn [first_text py_in getitem_str bind].
  rewrite H. cbn [bind truthy]. destruct t; [contradiction|]. reflexivity.
Qed.

Lemma extract_text_no_candidates (d : list (str * value)) :
  dict_lookup (lit "candidates") d = None ->
  extract_text (PyDict d) = Ok no_usable_text.
Proof.
  intros H. unfold extract_text. cbn [py_in bind]. rewrite H. reflexivity.
Qed.

Lemma extract_text_empty_candidates (d : list (str * value)) (c : value) :
  dict_lookup (lit "candidates") d = Some c -> truthy c = false ->
  extract_text (PyDict d) = Ok no_usable_text.
Proof.
  intros H Hc. unfold extract_text. cbn [py_in getitem_str bind].
  rewrite H. cbn [bind]. rewrite Hc. reflexivity.
Qed.

(** With a dict as first candidate, what is returned is decided by the
    candidate's content alone. *)
Lemma extract_text_candidate (data : value) (cand : list (str * value)) :
  body_with_candidate data cand ->
  extract_text data
  = (content <- get (PyDict cand) (lit "content") (PyDict []) ;;
     parts <- get content (lit "parts") (PyList []) ;;
     items <- iter parts ;;
     found <- first_text items ;;
     match found with
     | Some s => Ok s
     | None => Ok no_usable_text
     end).
Proof.
  intros [d [rest [-> H]]]. unfold extract_text.
  cbn [py_in getitem_str bind]. rewrite H. cbn [bind truthy].
  rewrite getitem_int_head. reflexivity.
Qed.

Lemma extract_text_parts (data : value) (parts : list value) :
  body_with_parts data parts ->
  extract_text data
  = (found <- first_text parts ;;
     match found with
     | Some s => Ok s
     | None => Ok no_usable_text
     end).
Proof.
  intros [cand [content [Hb [Hc Hp]]]].
  rewrite (extract_text_candidate data cand Hb).
  cbn [get bind]. rewrite Hc. cbn [get bind]. rewrite Hp. reflexivity.
Qed.

Lemma extract_text_unusable (data : value) :
  unusable_body data -> extract_text data = Ok no_usable_text.
Proof.
  intros [d H | d c H Hc | data' cand Hb H | data' cand content Hb Hc H
          | data' parts Hb H].
  - apply extract_text_no_candidates, H.
  - apply (extract_text_empty_candidates d c H Hc).
  - rewrite (extract_text_candidate data' cand Hb). cbn [get bind].
    rewrite H. reflexivity.
  - rewrite (extract_text_candidate data' cand Hb). cbn [get bind].
    rewrite Hc. cbn [get bind]. rewrite H. reflexivity.
  - rewrite (extract_text_parts data' parts Hb).
    rewrite <- (app_nil_r parts), first_text_skip_all by exact H.
    reflexivity.
Qed.

(** Bodies outside the schema are not guarded: [None] as body, or as first
    candidate, makes the statements after the [try] block raise. *)
Lemma extract_text_none_raises :
  extract_text PyNone = Raise TypeError /\
  extract_text (PyDict [(lit "candidates", PyList [PyNone])])
  = Raise AttributeError.
Proof. split; vm_compute; reflexivity. Qed.

Lemma strip_whitespace (t : str) :
  Forall (fun c => isspace c = true) t -> strip t = [].
Proof.
  intros H. unfold strip.
  replace (lstrip t) with (@nil char); [reflexivity|].
  induction H as [|c t Hc _ IH]; simpl; [reflexivity|].
  rewrite Hc. exact IH.
Qed.

(** In a list of schema parts of which one bears a non-empty text, a first
    such part exists, and the parts before it bear none. *)
Lemma first_part_with_text (parts : list value) :
  Forall part_of_schema parts ->
  Exists (fun p => exists t, part_with_text p t) parts ->
  exists pre p post t,
    parts = pre ++ p :: post /\
    Forall part_without_text pre /\ part_with_text p t.
Proof.
  induction 1 as [|p parts [d [-> Hd]] _ IH]; intros Hex;
    [inversion Hex|].
  assert (Hcase : part_without_text (PyDict d) \/
                  exists t, part_with_text (PyDict d) t).
  { destruct Hd as [Hd | [[|c t] Hd]].
    - left. exists d. auto.
    - left. exists d. split; [reflexivity|]. right. eauto.
    - right. exists (c :: t), d. repeat split; [exact Hd | discriminate]. }
  destruct Hcase as [Hno | [t Ht]].
  - assert (Htail : Exists (fun p => exists t, part_with_text p t) parts).
    { inversion Hex as [? ? [t [d' [E [Hl Hne]]]] | ]; subst; [|assumption].
      injection E as <-. destruct Hno as [d' [E' [Hn | [t' [Hl' Hf]]]]];
        injection E' as <-.
      - congruence.
      - rewrite Hl in Hl'. injection Hl' as <-. destruct t; [contradiction|].
        discriminate. }
    destruct (IH Htail) as [pre [p [post [t [-> [Hpre Hp]]]]]].
    exists (PyDict d :: pre), p, post, t. repeat split; auto.
  - exists [], (PyDict d), parts, t. repeat split; auto.
Qed.

Section ClientClaims.
Variable service : request -> post_outcome.
Variables api_key prompt : str.
Variable max_tokens : Z.

(** C1: when the POST and the JSON parse succeed and the parsed body is
    one of the well-formed but unexpected shapes (a dict whose
    "candidates" is missing or empty, whose first candidate is a dict
    without "content", whose content is a dict without "parts", or whose
    parts are dicts none of which has a non-empty "text"), [generate]
    returns the fixed warning string and raises nothing. *)
Theorem gemini_generate_no_usable_text (data : value) :
  (forall req,
      In req (requests_sent service (gemini_generate api_key prompt max_tokens)) ->
      service req = Parsed data) ->
  unusable_body data ->
  run service (gemini_generate api_key prompt max_tokens)
  = Ok (warning_glyph ++ lit " Gemini API returned no usable text.").
Proof.
  intros Hpost Hshape.
  destruct (gemini_generate_run service api_key prompt max_tokens)
    as [req [Hsent ->]].
  rewrite (Hpost req) by (rewrite Hsent; left; reflexivity).
  apply extract_text_unusable, Hshape.
Qed.

(** C3: when the POST or the JSON parse raises an exception, [generate]
    catches it and returns the warning glyph, the words
    " Network/Request error: " and the message of the exception; it
    raises nothing. *)
Theorem gemini_generate_transport_failure (e : str) :
  (forall req,
      In req (requests_sent service (gemini_generate api_key prompt max_tokens)) ->
      service req = Raised e) ->
  run service (gemini_generate api_key prompt max_tokens)
  = Ok (warning_glyph ++ lit " Network/Request error: " ++ e) /\
  startswith (warning_glyph ++ lit " Network/Request error: " ++ e)
             warning_glyph = true /\
  exists middle,
    warning_glyph ++ lit " Network/Request error: " ++ e
    = warning_glyph ++ middle ++ e.
Proof.
  intros Hpost.
  destruct (gemini_generate_run service api_key prompt max_tokens)
    as [req [Hsent ->]].
  rewrite (Hpost req) by (rewrite Hsent; left; reflexivity).
  split; [reflexivity|]. split.
  - apply startswith_iff. eexists. reflexivity.
  - eexists. reflexivity.
Qed.

(** C4: when the parsed body has a non-empty "candidates" list whose
    first candidate has a "content" with a "parts" list (of parts as the
    schema has them) in which at least one part bears a non-empty "text"
    string, [generate] returns the text of the first such part, stripped:
    the text without the whitespace at its two ends. *)
Theorem gemini_generate_returns_text (data : value) (parts : list value) :
  (forall req,
      In req (requests_sent service (gemini_generate api_key prompt max_tokens)) ->
      service req = Parsed data) ->
  body_with_parts data parts ->
  Forall part_of_schema parts ->
  Exists (fun p => exists t, part_with_text p t) parts ->
  exists pre p post t,
    parts = pre ++ p :: post /\
    Forall part_without_text pre /\
    part_with_text p t /\
    run service (gemini_generate api_key prompt max_tokens) = Ok (strip t) /\
    exists l r,
      t = l ++ strip t ++ r /\
      Forall (fun c => isspace c = true) l /\
      Forall (fun c => isspace c = true) r /\
      (forall c u, strip t = c :: u -> isspace c = false) /\
      (forall c u, strip t = u ++ [c] -> isspace c = false).
Proof.
  intros Hpost Hbody Hschema Hex.
  destruct (first_part_with_text parts Hschema Hex)
    as [pre [p [post [t [E [Hpre Hp]]]]]].
  exists pre, p, post, t. repeat split; auto.
  - destruct (gemini_generate_run service api_key prompt max_tokens)
      as [req [Hsent ->]].
    rewrite (Hpost req) by (rewrite Hsent; left; reflexivity).
    rewrite (extract_text_parts data parts Hbody), E.
    rewrite first_text_skip_all by exact Hpre.
    rewrite (first_text_hit p t post Hp). reflexivity.
  - destruct (strip_spec t) as [l [r H]]. exists l, r. exact H.
Qed.

(** C10: when the parsed body is a dict with a non-empty "candidates"
    list whose first element is a dict, [generate] returns the stripped
    "text" of the first part of that candidate's content.parts whose
    "text" is present and non-empty, skipping the parts before it that
    have no "text" or an empty one; when that text is whitespace only,
    the value returned is the empty string, which is not the warning
    string and does not start with the warning glyph. *)
Theorem gemini_generate_first_text (data : value)
        (pre post : list value) (p : value) (t : str) :
  (forall req,
      In req (requests_sent service (gemini_generate api_key prompt max_tokens)) ->
      service req = Parsed data) ->
  body_with_parts data (pre ++ p :: post) ->
  Forall part_without_text pre ->
  part_with_text p t ->
  run service (gemini_generate api_key prompt max_tokens) = Ok (strip t) /\
  (Forall (fun c => isspace c = true) t ->
   run service (gemini_generate api_key prompt max_tokens) = Ok [] /\
   @Ok str [] <> Ok no_usable_text /\
   startswith [] warning_glyph = false).
Proof.
  intros Hpost Hbody Hpre Hp.
  assert (Hrun : run service (gemini_generate api_key prompt max_tokens)
                 = Ok (strip t)).
  { destruct (gemini_generate_run service api_key prompt max_tokens)
      as [req [Hsent ->]].
    rewrite (Hpost req) by (rewrite Hsent; left; reflexivity).
    rewrite (extract_text_parts data _ Hbody).
    rewrite first_text_skip_all by exact Hpre.
    rewrite (first_text_hit p t post Hp). reflexivity. }
  split; [exact Hrun|]. intros Hws.
  rewrite Hrun, (strip_whitespace t Hws).
  repeat split. discriminate.
Qed.
End ClientClaims.

(** ** The orchestrator *)

Lemma str_in_middle (l w r : str) : str_in w (l ++ w ++ r) = true.
Proof. apply str_in_iff. exists l, r. reflexivity. Qed.

(** C5: the orchestrator joins [retrieve(intent)], taken with the default
    k = 3, with single spaces into the context (the empty string when
    nothing is retrieved), puts intent and context into the template, sends
    the one request of [generate] with that prompt as user text and 350 as
    the token cap, and returns what [generate] returns; for the intent
    "Set up branch office VPN" and the default knowledge base the prompt
    contains "VPN setup requires defining tunnel interfaces" and the
    intent. *)
Theorem orchestrator_prompt (ul : str -> str) (service : request -> post_outcome)
        (api_key intent : str) (rag : TinyRAG) :
  let context := join (lit " ") (retrieve ul rag intent 3) in
  let prompt := prompt_template intent context in
  (retrieve ul rag intent 3 = [] -> context = []) /\
  (forall a b rest,
      retrieve ul rag intent 3 = a :: b :: rest ->
      context = a ++ lit " " ++ join (lit " ") (b :: rest)) /\
  str_in intent prompt = true /\
  str_in context prompt = true /\
  (exists req,
      requests_sent service (agentic_network_configurator ul api_key intent rag)
      = [req] /\
      (contents <- getitem_str (req_json req) (lit "contents") ;;
       turn <- getitem_int contents 0 ;;
       parts <- getitem_str turn (lit "parts") ;;
       part <- getitem_int parts 0 ;;
       getitem_str part (lit "text")) = Ok (PyStr prompt) /\
      (config <- getitem_str (req_json req) (lit "generationConfig") ;;
       getitem_str config (lit "maxOutputTokens")) = Ok (PyInt 350)) /\
  run service (agentic_network_configurator ul api_key intent rag)
  = run service (gemini_generate api_key prompt 350) /\
  (let vpn_intent := lit "Set up branch office VPN" in
   let vpn_prompt :=
     prompt_template vpn_intent
       (join (lit " ") (retrieve ul TinyRAG_init vpn_intent 3)) in
   str_in (lit "VPN setup requires defining tunnel interfaces") vpn_prompt = true /\
   str_in vpn_intent vpn_prompt = true).
Proof.
  intros context prompt. split; [|split; [|split; [|split; [|split; [|split]]]]].
  - intros H. unfold context. rewrite H. reflexivity.
  - intros a b rest H. unfold context. rewrite H. reflexivity.
  - unfold prompt, prompt_template. apply str_in_middle.
  - unfold prompt, prompt_template. apply str_in_iff.
    match goal with
    | |- exists l r, ?a ++ intent ++ ?b ++ context ++ ?c = _ =>
        exists (a ++ intent ++ b), c
    end.
    rewrite <- !app_assoc. reflexivity.
  - unfold agentic_network_configurator. fold context. fold prompt.
    destruct (gemini_generate_run service api_key prompt 350) as [req [Hsent _]].
    exists req. split; [exact Hsent|].
    unfold gemini_generate in Hsent. cbn [requests_sent] in Hsent.
    assert (Hreq : req_json req
              = PyDict
                  [ (lit "contents",
                     PyList [PyDict [ (lit "role", PyStr (lit "user"));
                                      (lit "parts",
                                       PyList [PyDict [(lit "text", PyStr prompt)]]) ]]);
                    (lit "generationConfig",
                     PyDict [ (lit "temperature", PyFloat 0x1.999999999999ap-3%float);
                              (lit "maxOutputTokens", PyInt 350) ]) ]).
    { destruct (service _); injection Hsent as <-; reflexivity. }
    rewrite Hreq. split; reflexivity.
  - reflexivity.
  - split; vm_compute; reflexivity.
Qed.

(** C8: a retriever with an empty collection retrieves nothing, whatever
    the query and k; the context joined from that result is the empty
    string, and the orchestrator sends the template filled with the intent
    and the empty context. *)
Theorem retrieve_empty_collection (ul : str -> str) (query : str) (k : Z)
        (api_key : str) :
  retrieve ul {| docs := [] |} query k = [] /\
  join (lit " ") (retrieve ul {| docs := [] |} query default_k) = [] /\
  agentic_network_configurator ul api_key query {| docs := [] |}
  = gemini_generate api_key (prompt_template query []) 350.
Proof.
  assert (H : forall k', retrieve ul {| docs := [] |} query k' = []).
  { intros k'. rewrite retrieve_eq. simpl. unfold slice_to.
    destruct (k' <? 0); apply firstn_nil. }
  split; [apply H|]. split; [rewrite H; reflexivity|].
  unfold agentic_network_configurator. rewrite H. reflexivity.
Qed.

(** ** The claims at concrete inputs *)

(** A negative k does not bound the length of the result, against C2 as
    first stated: "vpn acls" has two snippets of positive score, and with
    k = -1 one snippet is returned, which is more than k. *)
Lemma retrieve_length_exceeds_negative_k :
  ~ (forall (ul : str -> str) (self : TinyRAG) (query : str) (k : Z),
        Z.of_nat (List.length (retrieve ul self query k)) <= k).
Proof.
  intros H.
  specialize (H (fun s => s) TinyRAG_init (lit "vpn acls") (-1)).
  vm_compute in H. apply H. reflexivity.
Qed.

Lemma retrieve_top_k_witness :
  0 <= 3 /\
  Z.of_nat (List.length (retrieve (fun s => s) TinyRAG_init (lit "vpn tunnel") 3))
  <= 3.
Proof.
  split; [lia|].
  pose proof (retrieve_top_k (fun s => s) TinyRAG_init (lit "vpn tunnel") 3) as H.
  cbv zeta in H. destruct H as [H _]. apply H. lia.
Defined.

Lemma retrieve_scores_by_tokens_witness :
  In (lit "Routing updates need proper redistribution to prevent loops.")
     (retrieve (fun s => s) TinyRAG_init (lit "need  VPN") 4).
Proof.
  pose proof (retrieve_scores_by_tokens (fun s => s) TinyRAG_init
                                        (lit "need  VPN")) as H.
  cbv zeta in H. destruct H as [_ [_ [_ [_ [H _]]]]].
  apply H.
  - simpl. lia.
  - simpl. right. right. left. reflexivity.
  - vm_compute. reflexivity.
Defined.

Lemma retrieve_negative_k_witness :
  -1 < 0 /\
  retrieve (fun s => s) TinyRAG_init (lit "vpn acls") (-1)
  = firstn (List.length (retrieve (fun s => s) TinyRAG_init (lit "vpn acls") 4)
            - Z.to_nat (- -1))
           (retrieve (fun s => s) TinyRAG_init (lit "vpn acls") 4).
Proof.
  split; [lia|].
  pose proof (retrieve_negative_k (fun s => s) TinyRAG_init (lit "vpn acls") (-1))
    as H.
  assert (Hk : -1 < 0) by lia. specialize (H Hk).
  cbv zeta in H. destruct H as [_ [H _]]. exact H.
Defined.

Lemma gemini_generate_no_usable_text_witness :
  unusable_body (PyDict [(lit "candidates", PyList [])]) /\
  run (fun _ => Parsed (PyDict [(lit "candidates", PyList [])]))
      (gemini_generate (lit "key") (lit "hello") default_max_tokens)
  = Ok (warning_glyph ++ lit " Gemini API returned no usable text.").
Proof.
  assert (Hshape : unusable_body (PyDict [(lit "candidates", PyList [])])).
  { apply (candidates_empty _ (PyList [])); reflexivity. }
  split; [exact Hshape|].
  apply (gemini_generate_no_usable_text
           (fun _ => Parsed (PyDict [(lit "candidates", PyList [])]))
           (lit "key") (lit "hello") default_max_tokens
           (PyDict [(lit "candidates", PyList [])])).
  - intros req _. reflexivity.
  - exact Hshape.
Defined.

Lemma gemini_generate_transport_failure_witness :
  run (fun _ => Raised (lit "timed out"))
      (gemini_generate (lit "key") (lit "hello") default_max_tokens)
  = Ok (warning_glyph ++ lit " Network/Request error: timed out").
Proof.
  apply (gemini_generate_transport_failure
           (fun _ => Raised (lit "timed out"))
           (lit "key") (lit "hello") default_max_tokens (lit "timed out")).
  intros req _. reflexivity.
Defined.

Lemma gemini_generate_returns_text_witness :
  exists pre p post t,
    [PyDict [(lit "text", PyStr (lit "  hi "))]] = pre ++ p :: post /\
    Forall part_without_text pre /\
    part_with_text p t /\
    run (fun _ =>
           Parsed (PyDict
                     [(lit "candidates",
                       PyList [PyDict
                                 [(lit "content",
                                   PyDict
                                     [(lit "parts",
                                       PyList [PyDict [(lit "text",
                                                        PyStr (lit "  hi "))]])])]])]))
        (gemini_generate (lit "key") (lit "hello") default_max_tokens)
    = Ok (strip t) /\
    exists l r,
      t = l ++ strip t ++ r /\
      Forall (fun c => isspace c = true) l /\
      Forall (fun c => isspace c = true) r /\
      (forall c u, strip t = c :: u -> isspace c = false) /\
      (forall c u, strip t = u ++ [c] -> isspace c = false).
Proof.
  eapply gemini_generate_returns_text.
  - intros req _. reflexivity.
  - eexists _, _. split; [eexists _, _; split; reflexivity|].
    split; reflexivity.
  - constructor; [|constructor]. eexists. split; [reflexivity|].
    right. eexists. reflexivity.
  - constructor. exists (lit "  hi "). eexists. split; [reflexivity|].
    split; [reflexivity | discriminate].
Defined.

Lemma gemini_generate_first_text_witness :
  run (fun _ =>
         Parsed (PyDict
                   [(lit "candidates",
                     PyList [PyDict
                               [(lit "content",
                                 PyDict
                                   [(lit "parts",
                                     PyList [PyDict [];
                                             PyDict [(lit "text", PyStr [])];
                                             PyDict [(lit "text",
                                                      PyStr (lit " "))];
                                             PyDict [(lit "text",
                                                      PyStr (lit "late"))]])])]])]))
      (gemini_generate (lit "key") (lit "hello") default_max_tokens)
  = Ok [].
Proof.
  eapply (gemini_generate_first_text _ _ _ _ _
            [PyDict []; PyDict [(lit "text", PyStr [])]]
            [PyDict [(lit "text", PyStr (lit "late"))]]
            (PyDict [(lit "text", PyStr (lit " "))]) (lit " ")).
  - intros req _. reflexivity.
  - eexists _, _. split; [eexists _, _; split; reflexivity|].
    split; reflexivity.
  - constructor; [|constructor; [|constructor]].
    + eexists. split; [reflexivity|]. left. reflexivity.
    + eexists. split; [reflexivity|]. right. eexists. split; reflexivity.
  - eexists. split; [reflexivity|]. split; [reflexivity | discriminate].
  - repeat constructor.
Defined.

Lemma orchestrator_prompt_witness :
  retrieve (fun s => s) TinyRAG_init (lit "firewall") 3 = [] /\
  join (lit " ") (retrieve (fun s => s) TinyRAG_init (lit "firewall") 3) = [].
Proof.
  split; [vm_compute; reflexivity|].
  pose proof (orchestrator_prompt (fun s => s) (fun _ => Raised [])
                (lit "key") (lit "firewall") TinyRAG_init) as H.
  cbv zeta in H. destruct H as [H _]. apply H. vm_compute. reflexivity.
Defined.

(** * Further properties of the code *)

(** ** The retriever beyond the claims *)

Lemma sort_by_key_constant {A : Type} (key : A -> Z) (c : Z) (l : list A) :
  Forall (fun x => key x = c) l -> sort_by_key key l = l.
Proof.
  induction 1 as [|x l Hx Hl IH]; [reflexivity|].
  simpl. rewrite IH. destruct Hl as [|y l Hy _]; [reflexivity|].
  simpl. rewrite Hx, Hy, Z.leb_refl. reflexivity.
Qed.

Lemma firstn_NoDup {A : Type} (n : nat) (l : list A) :
  NoDup l -> NoDup (firstn n l).
Proof.
  intros H. rewrite <- (firstn_skipn n l) in H.
  apply NoDup_app_remove_r in H. exact H.
Qed.

Lemma lower_ascii (ul : str -> str) (s : str) :
  forallb is_ascii s = true -> lower ul s = map ascii_lower s.
Proof. intros H. unfold lower. rewrite H. reflexivity. Qed.

Lemma ascii_lower_space (c : char) :
  isspace c = true -> ascii_lower c = c.
Proof.
  intros H. unfold ascii_lower.
  destruct ((65 <=? c) && (c <=? 90))%N eqn:E; [|reflexivity].
  apply andb_true_iff in E. destruct E as [E1 E2].
  apply N.leb_le in E1, E2. unfold isspace in H.
  repeat (apply orb_true_iff in H; destruct H as [H | H]);
    try (apply andb_true_iff in H; destruct H as [H1 H2];
         apply N.leb_le in H1, H2; lia);
    apply N.eqb_eq in H; lia.
Qed.

Lemma split_leading_space (l s : str) :
  Forall (fun c => isspace c = true) l -> split (l ++ s) = split s.
Proof.
  unfold split. induction 1 as [|c l Hc _ IH]; [reflexivity|].
  simpl. rewrite Hc. exact IH.
Qed.

Lemma split_trailing_space (s r : str) :
  Forall (fun c => isspace c = true) r -> split (s ++ r) = split s.
Proof.
  intros Hr. unfold split. generalize (@nil char) as cur.
  induction s as [|c s IH]; intros cur; simpl.
  - destruct Hr as [|c r Hc Hr]; [reflexivity|].
    simpl. rewrite Hc.
    pose proof (split_leading_space r [] Hr) as H. rewrite app_nil_r in H.
    unfold split in H. rewrite H. reflexivity.
  - destruct (isspace c); rewrite IH; reflexivity.
Qed.

Section RetrieverExtras.
Variable ul : str -> str.

(** Whatever k is, also a negative one, no more snippets are returned than
    the collection holds snippets of positive score. *)
Theorem retrieve_length_le_docs (self : TinyRAG) (query : str) (k : Z) :
  (List.length (retrieve ul self query k)
   <= List.length (filter (fun d => doc_score ul (split (lower ul query)) d >? 0)
                          (docs self)))%nat /\
  (List.length (retrieve ul self query k) <= List.length (docs self))%nat.
Proof.
  pose proof (filter_length_le
                (fun d => doc_score ul (split (lower ul query)) d >? 0)
                (docs self)) as Hf.
  assert (H : (List.length (retrieve ul self query k)
               <= List.length
                    (filter (fun d => doc_score ul (split (lower ul query)) d >? 0)
                            (docs self)))%nat).
  { rewrite retrieve_eq.
    match goal with
    | |- (List.length (slice_to k ?l) <= _)%nat =>
        destruct (slice_to_firstn k l) as [n ->]
    end.
    rewrite length_firstn, sort_by_key_length. lia. }
  split; lia.
Qed.

(** Asking for fewer snippets gives the beginning of what asking for more
    gives: for 0 <= k <= k', [retrieve(query, k)] is the first k elements
    of [retrieve(query, k')]. *)
Theorem retrieve_prefix_monotone (self : TinyRAG) (query : str) (k k' : Z) :
  0 <= k -> k <= k' ->
  retrieve ul self query k = firstn (Z.to_nat k) (retrieve ul self query k').
Proof.
  intros Hk Hk'. rewrite !retrieve_eq. unfold slice_to.
  destruct (k <? 0) eqn:E; [apply Z.ltb_lt in E; lia|].
  destruct (k' <? 0) eqn:E'; [apply Z.ltb_lt in E'; lia|].
  rewrite firstn_firstn. f_equal. lia.
Qed.

(** The first snippet returned has the highest score of the whole
    collection. *)
Theorem retrieve_head_best (self : TinyRAG) (query : str) (k : Z)
        (d : str) (rest : list str) :
  retrieve ul self query k = d :: rest ->
  forall d', In d' (docs self) ->
             doc_score ul (split (lower ul query)) d'
             <= doc_score ul (split (lower ul query)) d.
Proof.
  intros H d' Hd'.
  assert (Hd : In d (retrieve ul self query k)) by (rewrite H; left; reflexivity).
  apply retrieve_In in Hd. destruct Hd as [_ Hpos].
  destruct (Z_lt_le_dec 0 (doc_score ul (split (lower ul query)) d'))
    as [Hpos' | Hle]; [|lia].
  rewrite retrieve_eq in H.
  pose proof (sort_by_key_ordered
                (fun d => - doc_score ul (split (lower ul query)) d)
                (filter (fun d => doc_score ul (split (lower ul query)) d >? 0)
                        (docs self))) as Hs.
  pose proof (proj2 (retrieve_sorted_In ul self query d') (conj Hd' Hpos'))
    as Hin.
  destruct (slice_to_firstn k
              (sort_by_key (fun d => - doc_score ul (split (lower ul query)) d)
                 (filter (fun d => doc_score ul (split (lower ul query)) d >? 0)
                         (docs self)))) as [n Hn].
  rewrite Hn in H. clear Hn.
  destruct (sort_by_key _ _) as [|x l]; [destruct n; discriminate|].
  destruct n; [discriminate|]. simpl in H. injection H as -> _.
  inversion Hs as [|? ? _ Hall]; subst.
  destruct Hin as [<- | Hin]; [lia|].
  rewrite Forall_forall in Hall. specialize (Hall d' Hin). simpl in Hall. lia.
Qed.

(** With room for at least one snippet, nothing is returned exactly when
    every snippet of the collection scores 0. *)
Theorem retrieve_nil_iff (self : TinyRAG) (query : str) (k : Z) :
  1 <= k ->
  (retrieve ul self query k = [] <->
   forall d, In d (docs self) ->
             doc_score ul (split (lower ul query)) d = 0).
Proof.
  intros Hk. split.
  - intros H d Hd.
    pose proof (doc_score_nonneg ul (split (lower ul query)) d) as Hn.
    destruct (Z.eq_dec (doc_score ul (split (lower ul query)) d) 0)
      as [E | E]; [exact E|].
    assert (Hin : In d (sort_by_key
                          (fun d => - doc_score ul (split (lower ul query)) d)
                          (filter (fun d => doc_score ul (split (lower ul query)) d >? 0)
                                  (docs self))))
      by (apply retrieve_sorted_In; split; [exact Hd | lia]).
    rewrite retrieve_eq in H. unfold slice_to in H.
    destruct (k <? 0) eqn:Ek; [apply Z.ltb_lt in Ek; lia|].
    destruct (sort_by_key _ _) as [|x l]; [destruct Hin|].
    destruct (Z.to_nat k) eqn:En; [lia | discriminate].
  - intros H. destruct (retrieve ul self query k) as [|d r] eqn:E;
      [reflexivity|].
    assert (Hd : In d (retrieve ul self query k)) by (rewrite E; left; reflexivity).
    apply retrieve_In in Hd. destruct Hd as [Hd Hpos].
    rewrite (H d Hd) in Hpos. lia.
Qed.

(** Two ASCII queries that differ only in the case of their letters
    retrieve the same snippets. *)
Theorem retrieve_case_insensitive (self : TinyRAG) (query query' : str)
        (k : Z) :
  forallb is_ascii query = true ->
  forallb is_ascii query' = true ->
  map ascii_lower query = map ascii_lower query' ->
  retrieve ul self query k = retrieve ul self query' k.
Proof.
  intros Ha Ha' E. unfold retrieve.
  rewrite (lower_ascii ul query Ha), (lower_ascii ul query' Ha'), E.
  reflexivity.
Qed.

(** A query of one token returns the snippets whose lowercase form
    contains the token, in the order of the collection, cut by the slice. *)
Theorem retrieve_single_token (self : TinyRAG) (query w : str) (k : Z) :
  split (lower ul query) = [w] ->
  retrieve ul self query k
  = slice_to k (filter (fun d => str_in w (lower ul d)) (docs self)).
Proof.
  intros Hw. rewrite retrieve_eq, Hw. f_equal.
  assert (Hscore : forall d, doc_score ul [w] d
                             = if str_in w (lower ul d) then 1 else 0).
  { intros d. rewrite doc_score_cons. change (doc_score ul [] d) with 0.
    destruct (str_in w (lower ul d)); reflexivity. }
  rewrite (filter_ext (fun d => doc_score ul [w] d >? 0)
                      (fun d => str_in w (lower ul d))).
  - apply (sort_by_key_constant _ (-1)).
    apply Forall_forall. intros d Hd. apply filter_In in Hd.
    destruct Hd as [_ Hd]. rewrite Hscore, Hd. reflexivity.
  - intros d. rewrite Hscore. destruct (str_in w (lower ul d)); reflexivity.
Qed.

(** A collection without repeated snippets gives a result without
    repeated snippets. *)
Theorem retrieve_NoDup (self : TinyRAG) (query : str) (k : Z) :
  NoDup (docs self) -> NoDup (retrieve ul self query k).
Proof.
  intros H. rewrite retrieve_eq.
  match goal with
  | |- NoDup (slice_to k ?l) => destruct (slice_to_firstn k l) as [n ->]
  end.
  apply firstn_NoDup.
  eapply Permutation_NoDup; [symmetry; apply sort_by_key_perm|].
  apply NoDup_filter, H.
Qed.

(** Stripping an ASCII query, as the page does before it calls the
    pipeline, does not change what is retrieved. *)
Theorem retrieve_strip_invariant (self : TinyRAG) (query : str) (k : Z) :
  forallb is_ascii query = true ->
  retrieve ul self (strip query) k = retrieve ul self query k.
Proof.
  intros Ha. destruct (strip_spec query) as [l [r [E [Hl [Hr _]]]]].
  assert (Hs : forallb is_ascii (strip query) = true).
  { rewrite E in Ha. rewrite !forallb_app in Ha.
    apply andb_true_iff in Ha. destruct Ha as [_ Ha].
    apply andb_true_iff in Ha. apply Ha. }
  unfold retrieve. rewrite (lower_ascii ul _ Hs), (lower_ascii ul _ Ha).
  assert (Hsplit : split (map ascii_lower query)
                   = split (map ascii_lower (strip query))).
  { rewrite E at 1. rewrite !map_app.
    assert (Hmap : forall ws, Forall (fun c => isspace c = true) ws ->
                              map ascii_lower ws = ws).
    { induction 1 as [|c ws Hc _ IH]; [reflexivity|].
      simpl. rewrite IH, (ascii_lower_space c Hc). reflexivity. }
    rewrite (Hmap l Hl), (Hmap r Hr).
    rewrite (split_leading_space l _ Hl). apply split_trailing_space, Hr. }
  rewrite Hsplit. reflexivity.
Qed.
End RetrieverExtras.

(** ** The Gemini client beyond the claims *)

Lemma extract_text_first (d : list (str * value)) (c : value)
      (rest : list value) :
  dict_lookup (lit "candidates") d = Some (PyList (c :: rest)) ->
  extract_text (PyDict d)
  = (content <- get c (lit "content") (PyDict []) ;;
     parts <- get content (lit "parts") (PyList []) ;;
     items <- iter parts ;;
     found <- first_text items ;;
     match found with
     | Some s => Ok s
     | None => Ok no_usable_text
     end).
Proof.
  intros H. unfold extract_text. cbn [py_in getitem_str bind].
  rewrite H. cbn [bind truthy]. rewrite getitem_int_head. reflexivity.
Qed.

Lemma first_text_no_IndexError (parts : list value) :
  first_text parts <> Raise IndexError.
Proof.
  induction parts as [|p parts IH]; [discriminate|].
  destruct p as [| b | n | x | s | l | d];
    cbn [first_text py_in getitem_str bind]; try discriminate.
  - destruct (str_in (lit "text") s); cbn [bind]; [discriminate | exact IH].
  - destruct (existsb _ l); cbn [bind]; [discriminate | exact IH].
  - destruct (dict_lookup (lit "text") d) as [t|]; cbn [bind]; [|exact IH].
    destruct (truthy t); [|exact IH].
    destruct t; cbn [strip_method bind]; discriminate.
Qed.

Lemma extract_text_no_IndexError (data : value) :
  extract_text data <> Raise IndexError.
Proof.
  assert (Htail : forall c : value,
             (content <- get c (lit "content") (PyDict []) ;;
              parts <- get content (lit "parts") (PyList []) ;;
              items <- iter parts ;;
              found <- first_text items ;;
              match found with
              | Some s => Ok s
              | None => Ok no_usable_text
              end) <> Raise IndexError).
  { intros c. destruct c as [| b | n | x | s | l | cand];
      cbn [get bind]; try discriminate.
    destruct (match dict_lookup (lit "content") cand with
              | Some x => x
              | None => PyDict []
              end) as [| b | n | x | s | l | content];
      cbn [get bind]; try discriminate.
    assert (Hloop : forall items : list value,
               (found <- first_text items ;;
                match found with
                | Some s => Ok s
                | None => Ok no_usable_text
                end) <> Raise IndexError).
    { intros items. pose proof (first_text_no_IndexError items) as H.
      destruct (first_text items) as [[s|]|e]; cbn [bind];
        [discriminate | discriminate | congruence]. }
    destruct (match dict_lookup (lit "parts") content with
              | Some x => x
              | None => PyList []
              end) as [| b | n | x | s | l | dparts];
      cbn [iter bind]; try discriminate; apply Hloop. }
  destruct data as [| b | n | x | s | l | d]; unfold extract_text;
    cbn [py_in getitem_str bind]; try discriminate.
  - destruct (str_in (lit "candidates") s); cbn [bind]; discriminate.
  - destruct (existsb _ l); cbn [bind]; discriminate.
  - destruct (dict_lookup (lit "candidates") d) as [c|] eqn:Hc;
      cbn [bind]; [|discriminate].
    destruct (truthy c) eqn:Ht; [|discriminate].
    destruct c as [| b | n | x | [|ch s] | [|c0 l] | dc];
      try discriminate Ht; try (cbn [getitem_int bind]; discriminate).
    rewrite getitem_int_head. cbn [bind]. apply Htail.
Qed.

Section ClientExtras.
Variable service : request -> post_outcome.
Variables api_key prompt : str.
Variable max_tokens : Z.

(** Whatever the service answers, and also when the call raises,
    [generate] posts once and never again: one request, to the fixed URL,
    with the API key as the query parameter [key], the JSON content type, a
    timeout of 30 seconds and [max_tokens] as the token cap. *)
Theorem gemini_generate_single_request :
  exists req,
    requests_sent service (gemini_generate api_key prompt max_tokens) = [req] /\
    req_url req = API_URL /\
    req_params req = [(lit "key", api_key)] /\
    req_headers req = [(lit "Content-Type", lit "application/json")] /\
    req_timeout req = 30 /\
    (config <- getitem_str (req_json req) (lit "generationConfig") ;;
     getitem_str config (lit "maxOutputTokens")) = Ok (PyInt max_tokens).
Proof.
  unfold gemini_generate. cbn [requests_sent]. eexists. split.
  - destruct (service _); reflexivity.
  - repeat split.
Qed.

(** A body that parses to [None], a boolean or a number is not caught by
    the [try] block: [generate] raises [TypeError]. *)
Theorem gemini_generate_scalar_body (data : value) :
  (forall req,
      In req (requests_sent service (gemini_generate api_key prompt max_tokens)) ->
      service req = Parsed data) ->
  is_scalar data = true ->
  run service (gemini_generate api_key prompt max_tokens) = Raise TypeError.
Proof.
  intros Hpost Hs.
  destruct (gemini_generate_run service api_key prompt max_tokens)
    as [req [Hsent ->]].
  rewrite (Hpost req) by (rewrite Hsent; left; reflexivity).
  destruct data; try discriminate Hs; reflexivity.
Qed.

(** A body that parses to a list or to a string gives the fixed warning,
    unless the list has the string "candidates" as an element, or the
    string contains it: then [generate] raises [TypeError]. *)
Theorem gemini_generate_sequence_body (data : value) :
  (forall req,
      In req (requests_sent service (gemini_generate api_key prompt max_tokens)) ->
      service req = Parsed data) ->
  (forall l, data = PyList l ->
             run service (gemini_generate api_key prompt max_tokens)
             = if existsb (fun x => match x with
                                    | PyStr s => str_eqb s (lit "candidates")
                                    | _ => false
                                    end) l
               then Raise TypeError else Ok no_usable_text) /\
  (forall s, data = PyStr s ->
             run service (gemini_generate api_key prompt max_tokens)
             = if str_in (lit "candidates") s
               then Raise TypeError else Ok no_usable_text).
Proof.
  intros Hpost.
  destruct (gemini_generate_run service api_key prompt max_tokens)
    as [req [Hsent ->]].
  rewrite (Hpost req) by (rewrite Hsent; left; reflexivity).
  split; intros x ->; unfold extract_text; cbn [py_in getitem_str bind].
  - destruct (existsb _ x); reflexivity.
  - destruct (str_in (lit "candidates") x); reflexivity.
Qed.

(** A "candidates" item that tests true but is not a list with a dict in
    front makes [generate] raise: [AttributeError] for a list whose first
    element is no dict and for a string, [KeyError] for a dict,
    [TypeError] for a number or [True]. *)
Theorem gemini_generate_malformed_candidates (d : list (str * value))
        (c : value) :
  (forall req,
      In req (requests_sent service (gemini_generate api_key prompt max_tokens)) ->
      service req = Parsed (PyDict d)) ->
  dict_lookup (lit "candidates") d = Some c ->
  truthy c = true ->
  match c with
  | PyList (x :: _) => is_dict x = false
  | _ => True
  end ->
  run service (gemini_generate api_key prompt max_tokens)
  = Raise match c with
          | PyList _ | PyStr _ => AttributeError
          | PyDict _ => KeyError
          | _ => TypeError
          end.
Proof.
  intros Hpost Hc Ht Hshape.
  destruct (gemini_generate_run service api_key prompt max_tokens)
    as [req [Hsent ->]].
  rewrite (Hpost req) by (rewrite Hsent; left; reflexivity).
  destruct c as [| b | n | x | [|ch s] | [|c0 l] | dc];
    try discriminate Ht.
  - unfold extract_text. cbn [py_in getitem_str bind]. rewrite Hc.
    cbn [bind]. rewrite Ht. reflexivity.
  - unfold extract_text. cbn [py_in getitem_str bind]. rewrite Hc.
    cbn [bind]. rewrite Ht. reflexivity.
  - unfold extract_text. cbn [py_in getitem_str bind]. rewrite Hc.
    cbn [bind]. rewrite Ht. reflexivity.
  - unfold extract_text. cbn [py_in getitem_str bind]. rewrite Hc.
    reflexivity.
  - rewrite (extract_text_first d c0 l Hc).
    destruct c0; try discriminate Hshape; reflexivity.
  - unfold extract_text. cbn [py_in getitem_str bind]. rewrite Hc.
    cbn [bind]. rewrite Ht. reflexivity.
Qed.

(** In a first candidate that is a dict, a "content" that is no dict makes
    [generate] raise [AttributeError], and a "parts" of a content dict that
    is [None], a boolean or a number makes it raise [TypeError]. *)
Theorem gemini_generate_malformed_content (data : value)
        (cand : list (str * value)) (v : value) :
  (forall req,
      In req (requests_sent service (gemini_generate api_key prompt max_tokens)) ->
      service req = Parsed data) ->
  body_with_candidate data cand ->
  (dict_lookup (lit "content") cand = Some v -> is_dict v = false ->
   run service (gemini_generate api_key prompt max_tokens)
   = Raise AttributeError) /\
  (forall content,
      dict_lookup (lit "content") cand = Some (PyDict content) ->
      dict_lookup (lit "parts") content = Some v -> is_scalar v = true ->
      run service (gemini_generate api_key prompt max_tokens)
      = Raise TypeError).
Proof.
  intros Hpost Hb.
  destruct (gemini_generate_run service api_key prompt max_tokens)
    as [req [Hsent ->]].
  rewrite (Hpost req) by (rewrite Hsent; left; reflexivity).
  rewrite (extract_text_candidate data cand Hb). split.
  - intros Hc Hv. cbn [get bind]. rewrite Hc.
    destruct v; try discriminate Hv; reflexivity.
  - intros content Hc Hp Hv. cbn [get bind]. rewrite Hc. cbn [get bind].
    rewrite Hp. destruct v; try discriminate Hv; reflexivity.
Qed.

(** A "text" that tests true but is no string (a number, a list, a dict,
    [True]) in the first part that has a usable "text" makes [generate]
    raise [AttributeError]; the parts after it are not looked at. *)
Theorem gemini_generate_text_not_string (data : value)
        (pre post : list value) (d : list (str * value)) (t : value) :
  (forall req,
      In req (requests_sent service (gemini_generate api_key prompt max_tokens)) ->
      service req = Parsed data) ->
  body_with_parts data (pre ++ PyDict d :: post) ->
  Forall part_without_text pre ->
  dict_lookup (lit "text") d = Some t ->
  truthy t = true ->
  is_str t = false ->
  run service (gemini_generate api_key prompt max_tokens)
  = Raise AttributeError.
Proof.
  intros Hpost Hb Hpre Hd Ht Hs.
  destruct (gemini_generate_run service api_key prompt max_tokens)
    as [req [Hsent ->]].
  rewrite (Hpost req) by (rewrite Hsent; left; reflexivity).
  rewrite (extract_text_parts data _ Hb).
  rewrite first_text_skip_all by exact Hpre.
  cbn [first_text py_in getitem_str bind]. rewrite Hd. cbn [bind].
  rewrite Ht. destruct t; try discriminate Hs; reflexivity.
Qed.

(** The emptiness test on "candidates" guards the index [0]: no body makes
    [generate] raise [IndexError]. *)
Theorem gemini_generate_never_IndexError :
  run service (gemini_generate api_key prompt max_tokens) <> Raise IndexError.
Proof.
  destruct (gemini_generate_run service api_key prompt max_tokens)
    as [req [_ ->]].
  destruct (service req) as [e | data]; [discriminate|].
  apply extract_text_no_IndexError.
Qed.
End ClientExtras.

(** Only the first candidate counts: two dict bodies whose "candidates"
    lists start with the same candidate give the same result, whatever
    else the lists and the dicts hold. *)
Theorem gemini_generate_first_candidate_only
        (service service' : request -> post_outcome)
        (api_key prompt : str) (max_tokens : Z)
        (d d' : list (str * value)) (c : value) (rest rest' : list value) :
  (forall req, service req = Parsed (PyDict d)) ->
  (forall req, service' req = Parsed (PyDict d')) ->
  dict_lookup (lit "candidates") d = Some (PyList (c :: rest)) ->
  dict_lookup (lit "candidates") d' = Some (PyList (c :: rest')) ->
  run service (gemini_generate api_key prompt max_tokens)
  = run service' (gemini_generate api_key prompt max_tokens).
Proof.
  intros Hs Hs' Hd Hd'.
  destruct (gemini_generate_run service api_key prompt max_tokens)
    as [req [_ ->]].
  destruct (gemini_generate_run service' api_key prompt max_tokens)
    as [req' [_ ->]].
  rewrite Hs, Hs'.
  rewrite (extract_text_first d c rest Hd), (extract_text_first d' c rest' Hd').
  reflexivity.
Qed.

(** ** The orchestrator and the page beyond the claims *)

Lemma join_In (sep d : str) (l : list str) :
  In d l -> exists a b, join sep l = a ++ d ++ b.
Proof.
  induction l as [|x l IH]; [intros []|].
  intros [-> | H].
  - destruct l as [|y l].
    + exists [], []. simpl. rewrite app_nil_r. reflexivity.
    + exists [], (sep ++ join sep (y :: l)). reflexivity.
  - destruct (IH H) as [a [b E]]. destruct l as [|y l]; [destruct H|].
    exists (x ++ sep ++ a), b.
    change (join sep (x :: y :: l)) with (x ++ sep ++ join sep (y :: l)).
    rewrite E, <- !app_assoc. reflexivity.
Qed.

Lemma run_io_bind {A B : Type} (service : request -> post_outcome)
      (m : io A) (f : A -> io B) :
  run service (io_bind m f) = run service (f (run service m)).
Proof.
  induction m as [a | req k IH]; simpl; [reflexivity|]. apply IH.
Qed.

Lemma requests_sent_io_bind {A B : Type} (service : request -> post_outcome)
      (m : io A) (f : A -> io B) :
  requests_sent service (io_bind m f)
  = requests_sent service m ++ requests_sent service (f (run service m)).
Proof.
  induction m as [a | req k IH]; simpl; [reflexivity|].
  rewrite IH. reflexivity.
Qed.

(** The user text of the one request the orchestrator sends contains every
    retrieved snippet, and there are at most three of them. *)
Theorem orchestrator_prompt_holds_snippets (ul : str -> str)
        (service : request -> post_outcome) (api_key intent : str)
        (rag : TinyRAG) :
  exists req p,
    requests_sent service (agentic_network_configurator ul api_key intent rag)
    = [req] /\
    (contents <- getitem_str (req_json req) (lit "contents") ;;
     turn <- getitem_int contents 0 ;;
     parts <- getitem_str turn (lit "parts") ;;
     part <- getitem_int parts 0 ;;
     getitem_str part (lit "text")) = Ok (PyStr p) /\
    (forall d, In d (retrieve ul rag intent default_k) -> str_in d p = true) /\
    (List.length (retrieve ul rag intent default_k) <= 3)%nat.
Proof.
  unfold agentic_network_configurator, gemini_generate.
  cbn [requests_sent]. eexists. eexists. split; [|split; [|split]].
  - destruct (service _); reflexivity.
  - reflexivity.
  - intros d Hd. apply str_in_iff.
    destruct (join_In (lit " ") d _ Hd) as [a [b E]]. rewrite E.
    unfold prompt_template.
    match goal with
    | |- exists l r, ?x ++ intent ++ ?y ++ (a ++ d ++ b) ++ ?z = _ =>
        exists (x ++ intent ++ y ++ a), (b ++ z)
    end.
    rewrite <- !app_assoc. reflexivity.
  - rewrite retrieve_eq. pose proof (slice_to_length_nonneg default_k
      (sort_by_key (fun d => - doc_score ul (split (lower ul intent)) d)
         (filter (fun d => doc_score ul (split (lower ul intent)) d >? 0)
                 (docs rag)))) as H.
    unfold default_k in *. lia.
Qed.


Section PageExtras.
Variable ul : str -> str.
Variable service : request -> post_outcome.
Variable environ : mapping.
Variable secrets : option mapping.
Variable intent_input : str.



(** With a key, an intent of whitespace only stops the run at the
    warning, and nothing is posted. *)
Theorem page_blank_intent (key : str) :
  get_api_key environ secrets = Some key -> key <> [] ->
  Forall (fun c => isspace c = true) intent_input ->
  run service (page ul environ secrets intent_input true)
  = (page_head ++ [st_warning (lit "Please enter a network intent.")], None) /\
  requests_sent service (page ul environ secrets intent_input true) = [].
Proof.
  intros Hk Hne Hws. unfold page. rewrite Hk.
  destruct key as [|c key]; [contradiction|].
  rewrite (strip_whitespace intent_input Hws). split; reflexivity.
Qed.

(** When the call to the service raises, the run does not stop and shows
    no error box: the warning text of the client is put on the page as the
    report, under the heading, like a generated configuration. *)
Theorem page_transport_failure (key e : str) :
  get_api_key environ secrets = Some key -> key <> [] ->
  strip intent_input <> [] ->
  (forall req, service req = Raised e) ->
  run service (page ul environ secrets intent_input true)
  = (page_head
     ++ [ st_spinner (lit "Generating configurations...");
          st_subheader ([128221%N] ++ lit " Configuration Output");
          st_markdown (warning_glyph ++ lit " Network/Request error: " ++ e) ],
     None).
Proof.
  intros Hk Hne Hs Hpost. unfold page. rewrite Hk.
  destruct key as [|c key]; [contradiction|].
  destruct (strip intent_input) as [|c' s]; [contradiction|].
  rewrite run_io_bind. unfold agentic_network_configurator.
  destruct (gemini_generate_run service (c :: key)
              (prompt_template (c' :: s)
                 (join (lit " ") (retrieve ul TinyRAG_init (c' :: s) default_k)))
              350) as [req [_ ->]].
  rewrite Hpost. reflexivity.
Qed.

(** A body that parses to [None], a boolean or a number ends the run with
    the [TypeError] of the client, after the spinner and before any report
    is shown. *)
Theorem page_scalar_body_crash (key : str) (data : value) :
  get_api_key environ secrets = Some key -> key <> [] ->
  strip intent_input <> [] ->
  (forall req, service req = Parsed data) ->
  is_scalar data = true ->
  run service (page ul environ secrets intent_input true)
  = (page_head ++ [st_spinner (lit "Generating configurations...")],
     Some (ClientError TypeError)).
Proof.
  intros Hk Hne Hs Hpost Hd. unfold page. rewrite Hk.
  destruct key as [|c key]; [contradiction|].
  destruct (strip intent_input) as [|c' s]; [contradiction|].
  rewrite run_io_bind. unfold agentic_network_configurator.
  destruct (gemini_generate_run service (c :: key)
              (prompt_template (c' :: s)
                 (join (lit " ") (retrieve ul TinyRAG_init (c' :: s) default_k)))
              350) as [req [_ ->]].
  rewrite Hpost. destruct data; try discriminate Hd; reflexivity.
Qed.

(** The intent reaches the prompt stripped: the user text of the request
    is the template filled with the stripped intent and the snippets
    retrieved for it from the default knowledge base. *)
Theorem page_sends_stripped_intent (key : str) :
  get_api_key environ secrets = Some key -> key <> [] ->
  strip intent_input <> [] ->
  exists req,
    requests_sent service (page ul environ secrets intent_input true) = [req] /\
    (contents <- getitem_str (req_json req) (lit "contents") ;;
     turn <- getitem_int contents 0 ;;
     parts <- getitem_str turn (lit "parts") ;;
     part <- getitem_int parts 0 ;;
     getitem_str part (lit "text"))
    = Ok (PyStr (prompt_template (strip intent_input)
                   (join (lit " ")
                      (retrieve ul TinyRAG_init (strip intent_input) 3)))).
Proof.
  intros Hk Hne Hs. unfold page. rewrite Hk.
  destruct key as [|c key]; [contradiction|].
  destruct (strip intent_input) as [|c' s]; [contradiction|].
  rewrite requests_sent_io_bind.
  unfold agentic_network_configurator, gemini_generate.
  cbn [requests_sent run]. eexists. split.
  - destruct (service _) as [e | data]; cbn [requests_sent run app].
    + reflexivity.
    + destruct (extract_text data); reflexivity.
  - reflexivity.
Qed.
End PageExtras.

(** ** The further properties at concrete inputs *)

Lemma retrieve_prefix_monotone_witness :
  retrieve (fun s => s) TinyRAG_init (lit "vpn acls need") 1
  = firstn (Z.to_nat 1)
           (retrieve (fun s => s) TinyRAG_init (lit "vpn acls need") 3).
Proof.
  apply (retrieve_prefix_monotone (fun s => s) TinyRAG_init
                                  (lit "vpn acls need") 1 3); lia.
Defined.

Lemma retrieve_head_best_witness :
  doc_score (fun s => s) (split (lower (fun s => s) (lit "vpn tunnel need")))
    (lit "ACLs should be applied carefully to avoid blocking legitimate traffic.")
  <= doc_score (fun s => s) (split (lower (fun s => s) (lit "vpn tunnel need")))
       (lit "VPN setup requires defining tunnel interfaces, encryption, and peer IPs.").
Proof.
  apply (retrieve_head_best (fun s => s) TinyRAG_init (lit "vpn tunnel need") 3
           (lit "VPN setup requires defining tunnel interfaces, encryption, and peer IPs.")
           [lit "Routing updates need proper redistribution to prevent loops."]).
  - vm_compute. reflexivity.
  - simpl. right. left. reflexivity.
Defined.

Lemma retrieve_nil_iff_witness :
  retrieve (fun s => s) TinyRAG_init (lit "firewall") 3 = [] <->
  forall d, In d (docs TinyRAG_init) ->
            doc_score (fun s => s) (split (lower (fun s => s) (lit "firewall"))) d
            = 0.
Proof.
  apply (retrieve_nil_iff (fun s => s) TinyRAG_init (lit "firewall") 3). lia.
Defined.

Lemma retrieve_case_insensitive_witness :
  retrieve (fun s => s) TinyRAG_init (lit "VPN Tunnel") 3
  = retrieve (fun s => s) TinyRAG_init (lit "vpn TUNNEL") 3.
Proof.
  apply (retrieve_case_insensitive (fun s => s) TinyRAG_init
           (lit "VPN Tunnel") (lit "vpn TUNNEL") 3); vm_compute; reflexivity.
Defined.

Lemma retrieve_single_token_witness :
  retrieve (fun s => s) TinyRAG_init (lit " Co ") 3
  = slice_to 3
      (filter (fun d => str_in (lit "co") (lower (fun s => s) d))
              (docs TinyRAG_init)).
Proof.
  apply (retrieve_single_token (fun s => s) TinyRAG_init (lit " Co ")
                               (lit "co") 3).
  vm_compute. reflexivity.
Defined.

Lemma retrieve_NoDup_witness :
  NoDup (retrieve (fun s => s) TinyRAG_init (lit "vpn acls need") 3).
Proof.
  apply (retrieve_NoDup (fun s => s) TinyRAG_init (lit "vpn acls need") 3).
  vm_compute.
  repeat (constructor; [simpl; intuition discriminate|]). constructor.
Defined.

Lemma retrieve_strip_invariant_witness :
  retrieve (fun s => s) TinyRAG_init (strip (lit "  vpn tunnel ")) 3
  = retrieve (fun s => s) TinyRAG_init (lit "  vpn tunnel ") 3.
Proof.
  apply (retrieve_strip_invariant (fun s => s) TinyRAG_init
                                  (lit "  vpn tunnel ") 3).
  vm_compute. reflexivity.
Defined.

Lemma gemini_generate_scalar_body_witness :
  run (fun _ => Parsed PyNone)
      (gemini_generate (lit "key") (lit "hello") default_max_tokens)
  = Raise TypeError.
Proof.
  apply (gemini_generate_scalar_body (fun _ => Parsed PyNone)
           (lit "key") (lit "hello") default_max_tokens PyNone).
  - intros req _. reflexivity.
  - reflexivity.
Defined.

Lemma gemini_generate_sequence_body_witness :
  run (fun _ => Parsed (PyList [PyStr (lit "candidates")]))
      (gemini_generate (lit "key") (lit "hello") default_max_tokens)
  = Raise TypeError.
Proof.
  pose proof (gemini_generate_sequence_body
                (fun _ => Parsed (PyList [PyStr (lit "candidates")]))
                (lit "key") (lit "hello") default_max_tokens
                (PyList [PyStr (lit "candidates")])) as H.
  destruct H as [H _]; [intros req _; reflexivity|].
  apply (H [PyStr (lit "candidates")]). reflexivity.
Defined.

Lemma gemini_generate_malformed_candidates_witness :
  run (fun _ => Parsed (PyDict [(lit "candidates", PyList [PyNone])]))
      (gemini_generate (lit "key") (lit "hello") default_max_tokens)
  = Raise AttributeError.
Proof.
  apply (gemini_generate_malformed_candidates
           (fun _ => Parsed (PyDict [(lit "candidates", PyList [PyNone])]))
           (lit "key") (lit "hello") default_max_tokens
           [(lit "candidates", PyList [PyNone])] (PyList [PyNone])).
  - intros req _. reflexivity.
  - reflexivity.
  - reflexivity.
  - reflexivity.
Defined.

Lemma gemini_generate_malformed_content_witness :
  run (fun _ =>
         Parsed (PyDict [(lit "candidates",
                          PyList [PyDict [(lit "content", PyNone)]])]))
      (gemini_generate (lit "key") (lit "hello") default_max_tokens)
  = Raise AttributeError.
Proof.
  pose proof (gemini_generate_malformed_content
                (fun _ =>
                   Parsed (PyDict [(lit "candidates",
                                    PyList [PyDict [(lit "content", PyNone)]])]))
                (lit "key") (lit "hello") default_max_tokens
                (PyDict [(lit "candidates",
                          PyList [PyDict [(lit "content", PyNone)]])])
                [(lit "content", PyNone)] PyNone) as H.
  destruct H as [H _].
  - intros req _. reflexivity.
  - eexists _, _. split; reflexivity.
  - apply H; reflexivity.
Defined.

Lemma gemini_generate_text_not_string_witness :
  run (fun _ =>
         Parsed (PyDict
                   [(lit "candidates",
                     PyList [PyDict
                               [(lit "content",
                                 PyDict
                                   [(lit "parts",
                                     PyList [PyDict [(lit "text", PyInt 5)];
                                             PyDict [(lit "text",
                                                      PyStr (lit "hi"))]])])]])]))
      (gemini_generate (lit "key") (lit "hello") default_max_tokens)
  = Raise AttributeError.
Proof.
  eapply (gemini_generate_text_not_string _ _ _ _ _ []
            [PyDict [(lit "text", PyStr (lit "hi"))]]
            [(lit "text", PyInt 5)] (PyInt 5)).
  - intros req _. reflexivity.
  - eexists _, _. split; [eexists _, _; split; reflexivity|].
    split; reflexivity.
  - constructor.
  - reflexivity.
  - reflexivity.
  - reflexivity.
Defined.

Lemma gemini_generate_first_candidate_only_witness :
  run (fun _ =>
         Parsed (PyDict [(lit "candidates", PyList [PyDict []; PyNone])]))
      (gemini_generate (lit "key") (lit "hello") default_max_tokens)
  = run (fun _ =>
           Parsed (PyDict [(lit "usageMetadata", PyInt 7);
                           (lit "candidates", PyList [PyDict []])]))
        (gemini_generate (lit "key") (lit "hello") default_max_tokens).
Proof.
  apply (gemini_generate_first_candidate_only _ _ _ _ _
           [(lit "candidates", PyList [PyDict []; PyNone])]
           [(lit "usageMetadata", PyInt 7);
            (lit "candidates", PyList [PyDict []])]
           (PyDict []) [PyNone] []).
  - intros req. reflexivity.
  - intros req. reflexivity.
  - reflexivity.
  - reflexivity.
Defined.



Lemma page_blank_intent_witness :
  requests_sent (fun _ => Raised [])
    (page (fun s => s) [(lit "GEMINI_API_KEY", lit "k")] (Some [])
          (lit "   ") true)
  = [].
Proof.
  apply (page_blank_intent (fun s => s) (fun _ => Raised [])
           [(lit "GEMINI_API_KEY", lit "k")] (Some []) (lit "   ") (lit "k")).
  - reflexivity.
  - discriminate.
  - vm_compute. repeat constructor.
Defined.

Lemma page_transport_failure_witness :
  run (fun _ => Raised (lit "timed out"))
      (page (fun s => s) [(lit "GEMINI_API_KEY", lit "k")] (Some [])
            (lit " Set up branch office VPN ") true)
  = (page_head
     ++ [ st_spinner (lit "Generating configurations...");
          st_subheader ([128221%N] ++ lit " Configuration Output");
          st_markdown (warning_glyph
                       ++ lit " Network/Request error: " ++ lit "timed out") ],
     None).
Proof.
  apply (page_transport_failure (fun s => s) (fun _ => Raised (lit "timed out"))
           [(lit "GEMINI_API_KEY", lit "k")] (Some [])
           (lit " Set up branch office VPN ") (lit "k") (lit "timed out")).
  - reflexivity.
  - discriminate.
  - vm_compute. discriminate.
  - intros req. reflexivity.
Defined.

Lemma page_scalar_body_crash_witness :
  run (fun _ => Parsed PyNone)
      (page (fun s => s) [(lit "GEMINI_API_KEY", lit "k")] (Some [])
            (lit " Set up branch office VPN ") true)
  = (page_head ++ [st_spinner (lit "Generating configurations...")],
     Some (ClientError TypeError)).
Proof.
  apply (page_scalar_body_crash (fun s => s) (fun _ => Parsed PyNone)
           [(lit "GEMINI_API_KEY", lit "k")] (Some [])
           (lit " Set up branch office VPN ") (lit "k") PyNone).
  - reflexivity.
  - discriminate.
  - vm_compute. discriminate.
  - intros req. reflexivity.
  - reflexivity.
Defined.

Lemma page_sends_stripped_intent_witness :
  exists req,
    requests_sent (fun _ => Raised [])
      (page (fun s => s) [(lit "GEMINI_API_KEY", lit "k")] (Some [])
            (lit " Set up branch office VPN ") true)
    = [req] /\
    (contents <- getitem_str (req_json req) (lit "contents") ;;
     turn <- getitem_int contents 0 ;;
     parts <- getitem_str turn (lit "parts") ;;
     part <- getitem_int parts 0 ;;
     getitem_str part (lit "text"))
    = Ok (PyStr (prompt_template (strip (lit " Set up branch office VPN "))
                   (join (lit " ")
                      (retrieve (fun s => s) TinyRAG_init
                                (strip (lit " Set up branch office VPN ")) 3)))).
Proof.
  apply (page_sends_stripped_intent (fun s => s) (fun _ => Raised [])
           [(lit "GEMINI_API_KEY", lit "k")] (Some [])
           (lit " Set up branch office VPN ") (lit "k")).
  - reflexivity.
  - discriminate.
  - vm_compute. discriminate.
Defined.
